(** * The proximity transport of weshnet: [pkg/proximitytransport/transport.go]

    A shallow embedding of [transport.go] and the properties of its
    dial/listen/callback contract.

    Conventions of the embedding.
    - Go's [(value, error)] results are sums or pairs with an [option error];
      [nil] is [None].
    - A [panic] is an outcome of its own.
    - Mutexes are not modelled: every function runs as one atomic step on the
      state it reads and writes, in the order of its statements.  [Listen]
      holds no lock from its test to its writes; its three parts are also
      given one by one (section [ListenSteps]), for calls that overlap.
    - Calls to the zap logger produce no state and are left out; the logger
      value itself is kept.
    - The libraries the file imports (go-multiaddr, pkg/errors, libp2p's peer,
      peerstore and network) are modelled by the small executable definitions
      of the modules [errors], [ma], [peer], [pstore] and [network] below.
    - [conn.go], [listener.go], [ringBuffer_map.go] and [driver.go] are not
      at hand.  What [transport.go] needs from them is modelled from the spec
      (and marked as such), or is a parameter (class [Package]) where the
      spec does not describe it. *)

From Stdlib Require Import ZArith String Ascii List Bool.
From Stdlib.Strings Require Import Byte.
From stdpp Require Import gmap strings list fin_maps.

Open Scope string_scope.
Open Scope list_scope.

(** ** Errors: [errors.New] and [errors.Wrap] of github.com/pkg/errors *)

Module errors.

Inductive error :=
| errorString (msg : string)
| withMessage (cause : error) (msg : string).

Definition New (msg : string) : option error := Some (errorString msg).

(** [Wrap] annotates [err] with a message; if [err] is nil, [Wrap]
    returns nil. *)
Definition Wrap (err : option error) (msg : string) : option error :=
  match err with
  | None => None
  | Some e => Some (withMessage e msg)
  end.

#[global] Instance error_eq_dec : EqDecision error.
Proof. solve_decision. Defined.

End errors.

Export errors(error, errorString, withMessage).

(** ** Multiaddresses: the part of go-multiaddr the transport uses

  A multiaddress is a sequence of components, each a registered protocol and
  a string value.  Only protocols that carry one string value per component
  (such as the proximity protocols, whose value is a peer id) are covered. *)

Module ma.

Record Protocol := { Name : string; Code : Z }.

Record Component := { proto : Protocol; value : string }.

Abbreviation Multiaddr := (list Component).

#[global] Instance Protocol_eq_dec : EqDecision Protocol.
Proof. solve_decision. Defined.

#[global] Instance Component_eq_dec : EqDecision Component.
Proof. solve_decision. Defined.

Definition ErrProtocolNotFound : error :=
  errorString "protocol not found in multiaddr".

(** [m.ValueForProtocol(code)]: the value of the first component with that
    protocol code, or the empty string and [ErrProtocolNotFound]. *)
Fixpoint ValueForProtocol (m : Multiaddr) (code : Z) : string * option error :=
  match m with
  | [] => ("", Some ErrProtocolNotFound)
  | c :: m' =>
      if Z.eqb (Code (proto c)) code then (value c, None)
      else ValueForProtocol m' code
  end.

(** [m.String()] *)
Fixpoint String (m : Multiaddr) : string :=
  match m with
  | [] => ""
  | c :: m' => "/" +:+ Name (proto c) +:+ "/" +:+ value c +:+ String m'
  end.

(** [m.Equal(m')] *)
Definition Equal (m m' : Multiaddr) : bool := bool_decide (m = m').

Definition is_slash (c : ascii) : bool := Ascii.eqb c "/"%char.

(** [strings.TrimRight(s, "/")] *)
Fixpoint TrimRight (s : string) : string :=
  match s with
  | EmptyString => EmptyString
  | String.String c s' =>
      let r := TrimRight s' in
      if is_slash c && String.eqb r "" then "" else String.String c r
  end.

(** [strings.Split(s, "/")] *)
Fixpoint Split (s : string) : list string :=
  match s with
  | EmptyString => [""]
  | String.String c s' =>
      if is_slash c then "" :: Split s'
      else match Split s' with
           | seg :: segs => String.String c seg :: segs
           | [] => [String.String c ""]
           end
  end.

(** A text without a slash, as the string form of a peer id is. *)
Fixpoint slash_free (s : string) : bool :=
  match s with
  | EmptyString => true
  | String.String c s' => negb (is_slash c) && slash_free s'
  end.

Section Table.

(** The protocol table of the process ([ma.AddProtocol]). *)
Variable protocols : list Protocol.

(** [ma.ProtocolWithName(name)]: the zero protocol when absent. *)
Definition ProtocolWithName (name : string) : Protocol :=
  match List.find (fun p => String.eqb (Name p) name) protocols with
  | Some p => p
  | None => {| Name := ""; Code := 0 |}
  end.

(** The components of the segments of a text.  Every protocol of the table
    is read with one value segment, taken as it is: protocols without value,
    path protocols and the checks of the transcoders are not modelled.  The
    properties below therefore suppose that a multiaddress was parsed, where
    they need one; none concludes that a text parses. *)
Fixpoint parseComponents (sp : list string) : Multiaddr + error :=
  match sp with
  | [] => inl []
  | name :: rest =>
      let p := ProtocolWithName name in
      if Z.eqb (Code p) 0 then
        inr (errorString "failed to parse multiaddr: unknown protocol")
      else
        match rest with
        | [] =>
            inr (errorString
                   "failed to parse multiaddr: unexpected end of multiaddr")
        | v :: rest' =>
            match parseComponents rest' with
            | inl m => inl ({| proto := p; value := v |} :: m)
            | inr e => inr e
            end
        end
  end.

(** [ma.NewMultiaddr(s)] *)
Definition NewMultiaddr (s : string) : Multiaddr + error :=
  match Split (TrimRight s) with
  | [] => inr (errorString "failed to parse multiaddr: must begin with /")
  | first :: sp =>
      if negb (String.eqb first "") then
        inr (errorString "failed to parse multiaddr: must begin with /")
      else
        match sp with
        | [] => inr (errorString "failed to parse multiaddr: empty multiaddr")
        | _ => parseComponents sp
        end
  end.

End Table.

End ma.

(** [fmt.Sprintf("/%s/%s", name, id)] *)
Definition Sprintf_slash2 (name id : string) : string :=
  "/" +:+ name +:+ "/" +:+ id.

(** ** Peer identities, peerstore and swarm (libp2p)

    Only what the transport calls is modelled.  A peer id is represented by
    its string form, which is what the transport reads from it. *)

Module peer.

Record ID := { ID_String : string }.

#[global] Instance ID_eq_dec : EqDecision ID.
Proof. solve_decision. Defined.

Record AddrInfo := { AddrInfo_ID : ID; Addrs : list ma.Multiaddr }.

End peer.

Module pstore.

(** [pstore.TempAddrTTL]: two minutes, in nanoseconds. *)
Definition TempAddrTTL : Z := 120000000000.

(** The peerstore is an address book owned by the overlay; the transport only
    writes to it.  It is represented by the sequence of writes it received. *)
Inductive Call :=
| AddAddr (p : peer.ID) (addr : ma.Multiaddr) (ttl : Z)
| AddAddrs (p : peer.ID) (addrs : list ma.Multiaddr) (ttl : Z)
| SetAddr (p : peer.ID) (addr : ma.Multiaddr) (ttl : Z).

End pstore.

Module network.

Inductive Direction := DirUnknown | DirInbound | DirOutbound.

(** A connection of the overlay, as [swarm.ConnsToPeer] returns it. *)
Record Conn := {
  RemotePeer : peer.ID;
  RemoteMultiaddr : ma.Multiaddr;
  closed : bool
}.

Definition Close (c : Conn) : Conn :=
  {| RemotePeer := RemotePeer c;
     RemoteMultiaddr := RemoteMultiaddr c;
     closed := true |}.

End network.

Record Swarm := {
  LocalPeer : peer.ID;
  Peerstore : list pstore.Call;
  swarm_conns : list network.Conn
}.

Definition Peerstore_call (c : pstore.Call) (s : Swarm) : Swarm :=
  {| LocalPeer := LocalPeer s;
     Peerstore := Peerstore s ++ [c];
     swarm_conns := swarm_conns s |}.

(** [tpt.Upgrader] is opaque to the transport: a handle. *)
Inductive Upgrader := UpgraderHandle (h : nat).

(** [context.Context]: the transport only asks whether it is cancelled. *)
Record Context := { cancelled : bool }.

(** [ctx.Err() != nil] *)
Definition ctx_Err (c : Context) : bool := cancelled c.

(** [context.WithCancel(parent)]: the child is done as soon as the parent is. *)
Definition WithCancel (parent : Context) : Context :=
  {| cancelled := cancelled parent |}.

(** [zap.Logger]: a no-op core or a real one, and the logger's name. *)
Record Logger := { nop : bool; logger_name : string }.

Definition NewNop : Logger := {| nop := true; logger_name := "" |}.

(** [l.Named(s)] *)
Definition Named (l : Logger) (s : string) : Logger :=
  if String.eqb s "" then l
  else if String.eqb (logger_name l) ""
       then {| nop := nop l; logger_name := s |}
       else {| nop := nop l; logger_name := logger_name l +:+ "." +:+ s |}.

(** ** Byte slices

    The driver hands its payload as a slice of a buffer it owns and may reuse.
    Memory is a sequence of buffers; a slice names a buffer and a window of
    it. *)

Abbreviation Heap := (list (list byte)).

Record Slice := { ptr : nat; off : nat; len : nat }.

(** The bytes a slice denotes. *)
Definition slice_bytes (h : Heap) (s : Slice) : list byte :=
  take (len s) (drop (off s) (default [] (h !! ptr s))).

(** A slice of a live buffer, within its bounds. *)
Definition slice_valid (h : Heap) (s : Slice) : Prop :=
  exists buf, h !! ptr s = Some buf /\ off s + len s <= length buf.

(** [make([]byte, n)] *)
Definition make (n : nat) (h : Heap) : Slice * Heap :=
  ({| ptr := length h; off := 0; len := n |}, h ++ [replicate n x00]).

(** [copy(dst, src)]: copies [min(len(dst), len(src))] bytes. *)
Definition copy (dst src : Slice) (h : Heap) : nat * Heap :=
  let n := Nat.min (len dst) (len src) in
  let bytes := take n (slice_bytes h src) in
  let h' :=
    match h !! ptr dst with
    | Some buf =>
        <[ptr dst :=
            take (off dst) buf ++ bytes ++ drop (off dst + n) buf]> h
    | None => h
    end in
  (n, h').

(** ** The pieces of the package defined next to [transport.go] *)

(** Modelled from the spec: RingBufferMap (ringBuffer_map.go is not at hand),
    a mapping from peer-id string to a bounded FIFO of byte buffers.  [Add]
    appends the payload to the per-key queue and drops the head if the queue
    is at capacity; it copies the payload, so the queue holds the bytes.
    [Delete] drops the queue of the key. *)
Record RingBufferMap := {
  rbm_size : nat;
  rbm_cache : gmap string (list (list byte))
}.

Definition NewRingBufferMap (l : Logger) (size : nat) : RingBufferMap :=
  {| rbm_size := size; rbm_cache := ∅ |}.

Definition rbm_queue (key : string) (r : RingBufferMap) : list (list byte) :=
  default [] (rbm_cache r !! key).

Definition rbm_Add (key : string) (payload : list byte) (r : RingBufferMap)
  : RingBufferMap :=
  let q := rbm_queue key r in
  let q' := if decide (rbm_size r <= length q) then tail q else q in
  {| rbm_size := rbm_size r;
     rbm_cache := <[key := q' ++ [payload]]> (rbm_cache r) |}.

Definition rbm_Delete (key : string) (r : RingBufferMap) : RingBufferMap :=
  {| rbm_size := rbm_size r; rbm_cache := delete key (rbm_cache r) |}.

(** Modelled from the spec: Conn (conn.go is not at hand), with the remote
    peer id and multiaddress, the direction, the [ready] flag, the pre-ready
    cache and the input pipe [mp.input], a channel of byte slices represented
    by the sequence of slices sent on it. *)
Record Conn := {
  remotePID : peer.ID;
  remoteMa : ma.Multiaddr;
  direction : network.Direction;
  ready : bool;
  conn_cache : RingBufferMap;
  mp_input : list Slice
}.

(** Modelled from the spec: [c.isReady()] reads the [ready] flag. *)
Definition isReady (c : Conn) : bool := ready c.

Definition Conn_cache_Add (key : string) (payload : list byte) (c : Conn)
  : Conn :=
  {| remotePID := remotePID c; remoteMa := remoteMa c;
     direction := direction c; ready := ready c;
     conn_cache := rbm_Add key payload (conn_cache c);
     mp_input := mp_input c |}.

(** [c.mp.input <- data] *)
Definition Conn_input_send (data : Slice) (c : Conn) : Conn :=
  {| remotePID := remotePID c; remoteMa := remoteMa c;
     direction := direction c; ready := ready c;
     conn_cache := conn_cache c;
     mp_input := mp_input c ++ [data] |}.

(** The request [HandleFoundPeer] hands to the listener. *)
Record connReq := { req_remoteMa : ma.Multiaddr; req_remotePID : peer.ID }.

(** Modelled from the spec: Listener (listener.go is not at hand), with the
    local multiaddress, the unbuffered inbound-request channel, represented by
    the sequence of requests handed over on it, and a cancellation context
    derived from the transport's. *)
Record Listener := {
  localMa : ma.Multiaddr;
  inboundConnReq : list connReq;
  listener_ctx : Context
}.

(** Modelled from the spec: [newListener(ctx, localMa, t)] (listener.go is
    not at hand) constructs the listener with a context derived from the
    transport's context. *)
Definition newListener (ctx : Context) (localMa : ma.Multiaddr) : Listener :=
  {| localMa := localMa; inboundConnReq := []; listener_ctx := WithCancel ctx |}.

Definition Listener_send (r : connReq) (l : Listener) : Listener :=
  {| localMa := localMa l;
     inboundConnReq := inboundConnReq l ++ [r];
     listener_ctx := listener_ctx l |}.

(** Modelled from the spec: [l.Addr()] (listener.go is not at hand) is the
    normalized local multiaddress of the listener; its string form is the
    text of that multiaddress. *)
Definition Listener_Addr_spec (l : Listener) : string := ma.String (localMa l).

(** The [ProximityDriver] capability, as far as the transport consumes it.
    [DialPeer] answers whether the native driver is linked to the peer. *)
Record ProximityDriver := {
  ProtocolCode : Z;
  ProtocolName : string;
  DefaultAddr : string;
  DialPeer : string -> bool
}.

(** ** What [transport.go] takes from outside *)

(** The libraries' process-wide state and functions: the protocol table of
    go-multiaddr and [peer.Decode]. *)
Class Libp2p := {
  protocols : list ma.Protocol;
  peer_Decode : string -> peer.ID + error
}.

(** The two parameters of the embedding: the string form of the address the
    listener reports, [listener.Addr().String()], and the driver
    [NoopProximityDriver].  The properties stated over this class hold
    whatever the two are.  Of the address, [transport.go] and the spec say
    two things: the comments of lines 254 and 276 and the spec's election
    step call it the local peer id, the spec's description of the listener
    the normalized local multiaddress ([Listener_Addr_spec] above). *)
Class Package := {
  Listener_Addr_String : Listener -> string;
  NoopProximityDriver : ProximityDriver
}.

(** ** The transport *)

Record proximityTransport := {
  swarm : Swarm;
  upgrader : Upgrader;
  connMap : gmap string Conn;
  cache : RingBufferMap;
  listener : option Listener;
  driver : ProximityDriver;
  logger : Logger;
  ctx : Context
}.

Definition set_swarm (s : Swarm) (t : proximityTransport) : proximityTransport :=
  {| swarm := s; upgrader := upgrader t; connMap := connMap t;
     cache := cache t; listener := listener t; driver := driver t;
     logger := logger t; ctx := ctx t |}.

Definition set_connMap (m : gmap string Conn) (t : proximityTransport)
  : proximityTransport :=
  {| swarm := swarm t; upgrader := upgrader t; connMap := m;
     cache := cache t; listener := listener t; driver := driver t;
     logger := logger t; ctx := ctx t |}.

Definition set_cache (c : RingBufferMap) (t : proximityTransport)
  : proximityTransport :=
  {| swarm := swarm t; upgrader := upgrader t; connMap := connMap t;
     cache := c; listener := listener t; driver := driver t;
     logger := logger t; ctx := ctx t |}.

Definition set_listener (l : option Listener) (t : proximityTransport)
  : proximityTransport :=
  {| swarm := swarm t; upgrader := upgrader t; connMap := connMap t;
     cache := cache t; listener := l; driver := driver t;
     logger := logger t; ctx := ctx t |}.

(** [x != nil] *)
Definition notnil {A} (x : option A) : bool :=
  match x with Some _ => true | None => false end.

(** The messages of the errors the transport creates. *)
Definition msg_Dial_no_listener : string :=
  "error: proximityTransport.Dial: no active listener".
Definition msg_Dial_wrong_multiaddr : string :=
  "error: proximityTransport.Dial: wrong multiaddr".
Definition msg_Dial_not_linked : string :=
  "error: proximityTransport.Dial: peer not connected through the native driver".
Definition msg_Dial_already_connected : string :=
  "error: proximityTransport.Dial: already connected to this address".
Definition msg_Listen_wrong_multiaddr : string :=
  "error: proximityTransport.Listen: wrong multiaddr".
Definition msg_Listen_one_listener : string :=
  "error: proximityTransport.Listen: one listener maximum".

Section Transport.

Context `{!Libp2p} `{!Package}.

(** [NewTransport(ctx, l, driver)] returns the constructor the overlay calls
    with its swarm and upgrader. *)
Definition NewTransport (ctx : Context) (l : option Logger)
    (driver : option ProximityDriver)
  : Swarm -> Upgrader -> proximityTransport * option error :=
  let l := match l with None => NewNop | Some l => l end in
  let l := Named l "ProximityTransport" in
  let driver :=
    match driver with None => NoopProximityDriver | Some d => d end in
  fun swarm u =>
    let transport :=
      {| swarm := swarm;
         upgrader := u;
         connMap := ∅;
         cache := NewRingBufferMap l 128;
         listener := None;
         driver := driver;
         logger := l;
         ctx := ctx |} in
    (transport, None).

(** *** Dial *)

(** What [Dial] returns: [nil] and an error value, or whatever
    [newConn(ctx, t, remoteMa, remotePID, network.DirOutbound)] returns
    ([newConn] is the only place a [Conn] is created). *)
Inductive DialResult :=
| DialReturn (err : option error)
| DialNewConn (remoteMa : ma.Multiaddr) (remotePID : peer.ID)
    (dir : network.Direction).

Definition Dial (t : proximityTransport) (remoteMa : ma.Multiaddr)
    (remotePID : peer.ID) : DialResult :=
  if negb (notnil (listener t)) then
    DialReturn (errors.New msg_Dial_no_listener)
  else
    let '(remoteAddr, err) :=
      ma.ValueForProtocol remoteMa (ProtocolCode (driver t)) in
    if notnil err || negb (String.eqb remoteAddr (peer.ID_String remotePID))
    then DialReturn (errors.Wrap err msg_Dial_wrong_multiaddr)
    else if negb (DialPeer (driver t) remoteAddr) then
      DialReturn (errors.New msg_Dial_not_linked)
    else
      let ok := notnil (connMap t !! remoteAddr) in
      if ok then DialReturn (errors.New msg_Dial_already_connected)
      else DialNewConn remoteMa remotePID network.DirOutbound.

(** Modelled from the spec: [newConn(ctx, t, remoteMa, remotePID, direction)]
    (conn.go is not at hand) inserts the connection into the transport's
    connection map, under the peer-id string, and creates its pre-ready
    cache; if an entry already exists it returns an error.  The connection
    starts not ready. *)
Definition newConn (t : proximityTransport) (remoteMa : ma.Multiaddr)
    (remotePID : peer.ID) (dir : network.Direction)
  : option error * proximityTransport :=
  let key := peer.ID_String remotePID in
  match connMap t !! key with
  | Some _ => (Some (errorString "ErrDuplicateConn"), t)
  | None =>
      let c :=
        {| remotePID := remotePID; remoteMa := remoteMa; direction := dir;
           ready := false;
           conn_cache := NewRingBufferMap (logger t) 128;
           mp_input := [] |} in
      (None, set_connMap (<[key := c]> (connMap t)) t)
  end.

(** The transport after [Dial]: [Dial] writes nothing itself. *)
Definition Dial_state (t : proximityTransport) (remoteMa : ma.Multiaddr)
    (remotePID : peer.ID) : proximityTransport :=
  match Dial t remoteMa remotePID with
  | DialReturn _ => t
  | DialNewConn remoteMa remotePID dir =>
      snd (newConn t remoteMa remotePID dir)
  end.

(** *** Listen *)

Inductive ListenResult :=
| ListenReturn (l : option Listener) (err : option error)
| ListenPanic (e : error).

(** [TransportMap] maps a protocol name to the transport registered under
    it; a transport is named by its index [self]. *)
Definition Listen (TransportMap : gmap string nat) (self : nat)
    (t : proximityTransport) (localMa : ma.Multiaddr)
  : ListenResult * gmap string nat * proximityTransport :=
  let localPID := peer.ID_String (LocalPeer (swarm t)) in
  let '(localAddr, err) :=
    ma.ValueForProtocol localMa (ProtocolCode (driver t)) in
  if notnil err
     || (negb (String.eqb (ma.String localMa) (DefaultAddr (driver t)))
         && negb (String.eqb localAddr localPID))
  then (ListenReturn None (errors.Wrap err msg_Listen_wrong_multiaddr),
        TransportMap, t)
  else
    let normalized :=
      if String.eqb (ma.String localMa) (DefaultAddr (driver t)) then
        match ma.NewMultiaddr protocols
                (Sprintf_slash2 (ProtocolName (driver t)) localPID) with
        | inl m => inl (m, None)
        | inr e => inr e
        end
      else inl (localMa, err) in
    match normalized with
    | inr e => (ListenPanic e, TransportMap, t)
    | inl (localMa, err) =>
        let ok := notnil (TransportMap !! ProtocolName (driver t)) in
        if ok || notnil (listener t) then
          (ListenReturn None (errors.New msg_Listen_one_listener),
           TransportMap, t)
        else
          let TransportMap :=
            <[ProtocolName (driver t) := self]> TransportMap in
          let l := newListener (ctx t) localMa in
          (ListenReturn (Some l) err, TransportMap, set_listener (Some l) t)
    end.

(** *** ReceiveFromPeer *)

Definition ReceiveFromPeer (h : Heap) (t : proximityTransport)
    (remotePID : string) (payload : Slice) : Heap * proximityTransport :=
  let '(data, h) := make (len payload) h in
  let '(_, h) := copy data payload h in
  match connMap t !! remotePID with
  | Some c =>
      let send :=
        let c := Conn_input_send data c in
        (h, set_connMap (<[remotePID := c]> (connMap t)) t) in
      if negb (isReady c) then
        if negb (ready c) then
          let c := Conn_cache_Add remotePID (slice_bytes h data) c in
          (h, set_connMap (<[remotePID := c]> (connMap t)) t)
        else send
      else send
  | None =>
      (h, set_cache (rbm_Add remotePID (slice_bytes h data) (cache t)) t)
  end.

(** *** HandleFoundPeer *)

(** The goroutine [HandleFoundPeer] starts: [t.connect(listener.ctx, pi)]. *)
Record GoConnect := { go_ctx : Context; go_pi : peer.AddrInfo }.

(** Which case of the [select] on the inbound-request channel is ready: the
    accept side took the request, or the listener's context was cancelled
    first. *)
Inductive SelectCase := CaseSend | CaseDone.

(** The ways [HandleFoundPeer] ends, one per [return] or [panic]. *)
Inductive FoundResult :=
| FoundWrongPeerID
| FoundPanic (e : error)
| FoundListenerNotRunning
| FoundOutgoing (g : GoConnect)
| FoundIncoming (r : connReq)
| FoundIncomingDone (r : connReq).

(** The boolean [HandleFoundPeer] returns, if it returns. *)
Definition Found_returns (r : FoundResult) : option bool :=
  match r with
  | FoundWrongPeerID => Some false
  | FoundPanic _ => None
  | FoundListenerNotRunning => Some false
  | FoundOutgoing _ => Some true
  | FoundIncoming _ => Some true
  | FoundIncomingDone _ => Some false
  end.

(** The state in which the election is evaluated: lines 220 to 252, up to
    and including [t.cache.Delete(sRemotePID)].  The left summand carries
    what the election reads. *)
Definition HandleFoundPeer_prepare (t : proximityTransport)
    (sRemotePID : string)
  : (peer.ID * ma.Multiaddr * Listener * proximityTransport) + FoundResult :=
  match peer_Decode sRemotePID with
  | inr _ => inr FoundWrongPeerID
  | inl remotePID =>
      match ma.NewMultiaddr protocols
              (Sprintf_slash2 (ProtocolName (driver t)) sRemotePID) with
      | inr e => inr (FoundPanic e)
      | inl remoteMa =>
          match listener t with
          | None => inr FoundListenerNotRunning
          | Some l =>
              if ctx_Err (listener_ctx l) then
                inr FoundListenerNotRunning
              else
                let t :=
                  set_swarm
                    (Peerstore_call
                       (pstore.AddAddr remotePID remoteMa pstore.TempAddrTTL)
                       (swarm t)) t in
                let t := set_cache (rbm_Delete sRemotePID (cache t)) t in
                inl (remotePID, remoteMa, l, t)
          end
      end
  end.

Definition HandleFoundPeer (t : proximityTransport) (sRemotePID : string)
    (sel : SelectCase) : FoundResult * proximityTransport :=
  match HandleFoundPeer_prepare t sRemotePID with
  | inr r => (r, t)
  | inl (remotePID, remoteMa, l, t) =>
      if String.ltb (Listener_Addr_String l) sRemotePID then
        (FoundOutgoing
           {| go_ctx := listener_ctx l;
              go_pi := {| peer.AddrInfo_ID := remotePID;
                          peer.Addrs := [remoteMa] |} |},
         t)
      else
        let r := {| req_remoteMa := remoteMa; req_remotePID := remotePID |} in
        match sel with
        | CaseSend =>
            (FoundIncoming r,
             set_listener (Listener_send r <$> listener t) t)
        | CaseDone => (FoundIncomingDone r, t)
        end
  end.

(** *** HandleLostPeer *)

Inductive LostResult :=
| LostWrongPeerID
| LostPanic (e : error)
| LostDone.

(** [conn.Close()] on every connection [t.swarm.ConnsToPeer(remotePID)]
    returns whose remote multiaddress equals [remoteMa]. *)
Definition close_conns_to_peer (remotePID : peer.ID) (remoteMa : ma.Multiaddr)
    (s : Swarm) : Swarm :=
  {| LocalPeer := LocalPeer s;
     Peerstore := Peerstore s;
     swarm_conns :=
       map (fun conn =>
              if bool_decide (network.RemotePeer conn = remotePID) then
                if ma.Equal (network.RemoteMultiaddr conn) remoteMa
                then network.Close conn else conn
              else conn)
           (swarm_conns s) |}.

Definition HandleLostPeer (t : proximityTransport) (sRemotePID : string)
  : LostResult * proximityTransport :=
  match peer_Decode sRemotePID with
  | inr _ => (LostWrongPeerID, t)
  | inl remotePID =>
      match ma.NewMultiaddr protocols
              (Sprintf_slash2 (ProtocolName (driver t)) sRemotePID) with
      | inr e => (LostPanic e, t)
      | inl remoteMa =>
          let s :=
            Peerstore_call (pstore.SetAddr remotePID remoteMa (-1)) (swarm t) in
          (LostDone, set_swarm (close_conns_to_peer remotePID remoteMa s) t)
      end
  end.

(** *** The process: the registry, the transports and the memory *)

Record World := {
  TransportMap : gmap string nat;
  transports : gmap nat proximityTransport;
  heap : Heap
}.

(** A call of a method of the transport [self]. *)
Inductive Call :=
| CallDial (self : nat) (remoteMa : ma.Multiaddr) (remotePID : peer.ID)
| CallListen (self : nat) (localMa : ma.Multiaddr)
| CallReceiveFromPeer (self : nat) (remotePID : string) (payload : Slice)
| CallHandleFoundPeer (self : nat) (sRemotePID : string) (sel : SelectCase)
| CallHandleLostPeer (self : nat) (sRemotePID : string).

Definition World_Listen (w : World) (self : nat) (localMa : ma.Multiaddr)
  : option ListenResult * World :=
  match transports w !! self with
  | None => (None, w)
  | Some t =>
      let '(r, tm, t) := Listen (TransportMap w) self t localMa in
      (Some r,
       {| TransportMap := tm;
          transports := <[self := t]> (transports w);
          heap := heap w |})
  end.

Definition update_transport (w : World) (self : nat)
    (f : proximityTransport -> proximityTransport) : World :=
  match transports w !! self with
  | None => w
  | Some t =>
      {| TransportMap := TransportMap w;
         transports := <[self := f t]> (transports w);
         heap := heap w |}
  end.

(** The state after a call that runs alone, from its first statement to its
    return.  A sequence of such steps is a history in which no two calls
    overlap; [Listen] one critical section at a time is further below. *)
Definition step (w : World) (c : Call) : World :=
  match c with
  | CallDial self remoteMa remotePID =>
      update_transport w self (fun t => Dial_state t remoteMa remotePID)
  | CallListen self localMa => snd (World_Listen w self localMa)
  | CallReceiveFromPeer self remotePID payload =>
      match transports w !! self with
      | None => w
      | Some t =>
          let '(h, t) := ReceiveFromPeer (heap w) t remotePID payload in
          {| TransportMap := TransportMap w;
             transports := <[self := t]> (transports w);
             heap := h |}
      end
  | CallHandleFoundPeer self sRemotePID sel =>
      update_transport w self (fun t => snd (HandleFoundPeer t sRemotePID sel))
  | CallHandleLostPeer self sRemotePID =>
      update_transport w self (fun t => snd (HandleLostPeer t sRemotePID))
  end.

(** Calls made one after the other. *)
Definition run (calls : list Call) (w : World) : World :=
  fold_left step calls w.

End Transport.

(** ** The other methods of the transport *)

(** The patterns of go-multiaddr-fmt the transport uses. *)
Module mafmt.

(** [a.Protocols()] *)
Definition Protocols (a : ma.Multiaddr) : list ma.Protocol := map ma.proto a.

(** [Base(n).Matches(a)]: [pcs[0].Code == n && len(pcs) == 1] on the
    protocols [pcs] of [a].  Reading the first protocol of an empty
    multiaddress panics; that is [None]. *)
Definition Base_Matches (n : Z) (a : ma.Multiaddr) : option bool :=
  match Protocols a with
  | [] => None
  | p0 :: _ => Some (Z.eqb (ma.Code p0) n && Nat.eqb (length (Protocols a)) 1)
  end.

End mafmt.

(** [network.Connectedness] *)
Inductive Connectedness :=
| NotConnected
| Connected
| CanConnect
| CannotConnect
| Limited.

#[global] Instance Connectedness_eq_dec : EqDecision Connectedness.
Proof. solve_decision. Defined.

(** What [connect] asks the overlay: the two flags a context may carry, the
    connectedness the swarm reports, and [swarm.DialPeer], which returns an
    error or nil and may change the transport on its way (it dials through
    the transports of the swarm). *)
Class Overlay := {
  GetForceDirectDial : Context -> bool;
  GetAllowLimitedConn : Context -> bool;
  swarm_Connectedness : Swarm -> peer.ID -> Connectedness;
  swarm_DialPeer :
    proximityTransport -> Context -> peer.ID -> option error * proximityTransport
}.

Section TransportMethods.

Context `{!Overlay}.

(** [t.CanDial(remoteMa)]; [None] when it panics. *)
Definition CanDial (t : proximityTransport) (remoteMa : ma.Multiaddr)
  : option bool :=
  mafmt.Base_Matches (ProtocolCode (driver t)) remoteMa.

(** [t.Protocols()] *)
Definition Protocols (t : proximityTransport) : list Z :=
  [ProtocolCode (driver t)].

(** The two ways [connect] ends: the early [return nil], or the return of
    the error of [swarm.DialPeer]. *)
Inductive ConnectResult :=
| ConnectAlready
| ConnectDialed (err : option error).

(** The error [connect] returns. *)
Definition Connect_err (r : ConnectResult) : option error :=
  match r with
  | ConnectAlready => None
  | ConnectDialed err => err
  end.

(** [t.connect(ctx, pi)] *)
Definition connect (t : proximityTransport) (ctx : Context)
    (pi : peer.AddrInfo) : ConnectResult * proximityTransport :=
  let t :=
    set_swarm
      (Peerstore_call
         (pstore.AddAddrs (peer.AddrInfo_ID pi) (peer.Addrs pi)
            pstore.TempAddrTTL)
         (swarm t)) t in
  let forceDirect := GetForceDirectDial ctx in
  let canUseLimitedConn := GetAllowLimitedConn ctx in
  let already :=
    if negb forceDirect then
      let connectedness :=
        swarm_Connectedness (swarm t) (peer.AddrInfo_ID pi) in
      bool_decide (connectedness = Connected)
      || (canUseLimitedConn && bool_decide (connectedness = Limited))
    else false in
  if already then (ConnectAlready, t)
  else
    let '(err, t) := swarm_DialPeer t ctx (peer.AddrInfo_ID pi) in
    (ConnectDialed err, t).

(** The goroutine of [HandleFoundPeer] (lines 259 to 270), with the
    variables it captures.  Beside the transport it yields the peers the
    driver was asked to drop with [CloseConnWithPeer]. *)
Definition HandleFoundPeer_go (t : proximityTransport) (l : Listener)
    (remotePID : peer.ID) (remoteMa : ma.Multiaddr) (sRemotePID : string)
  : proximityTransport * list string :=
  let '(r, t) :=
    connect t (listener_ctx l)
      {| peer.AddrInfo_ID := remotePID; peer.Addrs := [remoteMa] |} in
  match Connect_err r with
  | Some _ =>
      (set_swarm
         (Peerstore_call (pstore.SetAddr remotePID remoteMa (-1)) (swarm t)) t,
       [sRemotePID])
  | None => (t, [])
  end.


End TransportMethods.

(** ** Listen, one critical section at a time

    [Listen] holds no lock from its test to its writes: it reads the
    registry and the listener slot under read locks it releases (lines 158
    to 166), then writes the registry under its lock (lines 169 to 171), then
    installs the listener under the lock of the slot (lines 173 to 178).
    Another call can run between any two of these. *)

Section ListenSteps.

Context `{!Libp2p}.

(** How the first part of [Listen] ends: with a return or a panic, or with
    the test passed, the multiaddress to listen on and the error variable. *)
Inductive ListenTest :=
| TestEnds (r : ListenResult)
| TestPassed (localMa : ma.Multiaddr) (err : option error).

(** Lines 143 to 166: the checks of the multiaddress, the rewriting of the
    default address, and the test of the registry and the slot. *)
Definition Listen_test (TransportMap : gmap string nat)
    (t : proximityTransport) (localMa : ma.Multiaddr) : ListenTest :=
  let localPID := peer.ID_String (LocalPeer (swarm t)) in
  let '(localAddr, err) :=
    ma.ValueForProtocol localMa (ProtocolCode (driver t)) in
  if notnil err
     || (negb (String.eqb (ma.String localMa) (DefaultAddr (driver t)))
         && negb (String.eqb localAddr localPID))
  then TestEnds (ListenReturn None (errors.Wrap err msg_Listen_wrong_multiaddr))
  else
    let normalized :=
      if String.eqb (ma.String localMa) (DefaultAddr (driver t)) then
        match ma.NewMultiaddr protocols
                (Sprintf_slash2 (ProtocolName (driver t)) localPID) with
        | inl m => inl (m, None)
        | inr e => inr e
        end
      else inl (localMa, err) in
    match normalized with
    | inr e => TestEnds (ListenPanic e)
    | inl (localMa, err) =>
        let ok := notnil (TransportMap !! ProtocolName (driver t)) in
        if ok || notnil (listener t) then
          TestEnds (ListenReturn None (errors.New msg_Listen_one_listener))
        else TestPassed localMa err
    end.

(** Lines 169 to 171: [TransportMap[t.driver.ProtocolName()] = t]. *)
Definition Listen_register (TransportMap : gmap string nat) (self : nat)
    (t : proximityTransport) : gmap string nat :=
  <[ProtocolName (driver t) := self]> TransportMap.

(** Lines 173 to 178: the listener is made and installed, and returned. *)
Definition Listen_install (t : proximityTransport) (localMa : ma.Multiaddr)
    (err : option error) : ListenResult * proximityTransport :=
  let l := newListener (ctx t) localMa in
  (ListenReturn (Some l) err, set_listener (Some l) t).

End ListenSteps.

(** ** A concrete process

    Two registered protocols, a driver for the first, a decoder that accepts
    the non-empty base58 strings, and a listener address that is the payload
    of the listener's multiaddress.  The examples below run the transport on
    this process. *)

Module Example.

Definition ble : ma.Protocol := {| ma.Name := "ble"; ma.Code := 66 |}.
Definition tcp : ma.Protocol := {| ma.Name := "tcp"; ma.Code := 6 |}.

Definition base58 : string :=
  "123456789ABCDEFGHJKLMNPQRSTUVWXYZabcdefghijkmnopqrstuvwxyz".

Definition Decode (s : string) : peer.ID + error :=
  if negb (String.eqb s "")
     && forallb (fun c => existsb (Ascii.eqb c) (list_ascii_of_string base58))
          (list_ascii_of_string s)
  then inl {| peer.ID_String := s |}
  else inr (errorString "failed to parse peer ID").

Definition libp2p : Libp2p :=
  {| protocols := [tcp; ble]; peer_Decode := Decode |}.

(** Linked to the peer [zzz] only. *)
Definition bleDriver : ProximityDriver :=
  {| ProtocolCode := 66;
     ProtocolName := "ble";
     DefaultAddr := "/ble/Qmeo1";
     DialPeer := fun addr => String.eqb addr "zzz" |}.

Definition noopDriver : ProximityDriver :=
  {| ProtocolCode := 0;
     ProtocolName := "";
     DefaultAddr := "";
     DialPeer := fun _ => false |}.

Definition package : Package :=
  {| Listener_Addr_String := fun l => fst (ma.ValueForProtocol (localMa l) 66);
     NoopProximityDriver := noopDriver |}.

Definition background : Context := {| cancelled := false |}.

Definition addr (p : ma.Protocol) (v : string) : ma.Multiaddr :=
  [{| ma.proto := p; ma.value := v |}].

Definition swarm_of (local : string) : Swarm :=
  {| LocalPeer := {| peer.ID_String := local |};
     Peerstore := [];
     swarm_conns := [] |}.

(** A fresh transport of the peer [local]. *)
Definition fresh (local : string) : proximityTransport :=
  fst (@NewTransport package background None (Some bleDriver)
         (swarm_of local) (UpgraderHandle 0)).

(** The same transport once it listens on its own address. *)
Definition listening (local : string) : proximityTransport :=
  set_listener (Some (newListener background (addr ble local))) (fresh local).

(** A process with two transports of the protocol [ble], none listening, and
    one buffer of the driver. *)
Definition w0 : World :=
  {| TransportMap := ∅;
     transports := <[1 := fresh "mmm"]> (<[0 := fresh "aaa"]> ∅);
     heap := [[x51; x52; x53]] |}.

(** The process after the first transport listened on the default address. *)
Definition w1 : World :=
  snd (@World_Listen libp2p w0 0 (addr ble "Qmeo1")).

(** The driver's payload: the first two bytes of its buffer. *)
Definition payload : Slice := {| ptr := 0; off := 0; len := 2 |}.

(** A connection of the peer [zzz], not ready. *)
Definition opening : Conn :=
  {| remotePID := {| peer.ID_String := "zzz" |};
     remoteMa := addr ble "zzz";
     direction := network.DirInbound;
     ready := false;
     conn_cache := NewRingBufferMap NewNop 128;
     mp_input := [] |}.

Definition zzz : peer.ID := {| peer.ID_String := "zzz" |}.
Definition zzy : peer.ID := {| peer.ID_String := "zzy" |}.

(** A listening transport with that connection in its map. *)
Definition with_conn : proximityTransport :=
  set_connMap (<["zzz" := opening]> ∅) (listening "aaa").

(** A listening transport that cached the payload received from [zzz]. *)
Definition cached : proximityTransport :=
  snd (ReceiveFromPeer (heap w0) (listening "aaa") "zzz" payload).

(** An overlay that reports the peer [zzz] as connected and fails to dial
    any other peer, leaving the transport as it is. *)
Definition overlay : Overlay :=
  {| GetForceDirectDial := fun _ => false;
     GetAllowLimitedConn := fun _ => false;
     swarm_Connectedness :=
       fun _ p => if String.eqb (peer.ID_String p) "zzz" then Connected
                  else NotConnected;
     swarm_DialPeer := fun t _ _ => (Some (errorString "dial backoff"), t) |}.

(** A swarm of the peer [aaa] with two connections to [zzz], one over the
    proximity link and one over another transport, and one to [zzy]. *)
Definition busy_swarm : Swarm :=
  {| LocalPeer := {| peer.ID_String := "aaa" |};
     Peerstore := [];
     swarm_conns :=
       [ {| network.RemotePeer := zzz;
            network.RemoteMultiaddr := addr ble "zzz";
            network.closed := false |};
         {| network.RemotePeer := zzz;
            network.RemoteMultiaddr := addr tcp "80";
            network.closed := false |};
         {| network.RemotePeer := zzy;
            network.RemoteMultiaddr := addr ble "zzy";
            network.closed := false |} ] |}.

Definition busy : proximityTransport := set_swarm busy_swarm (listening "aaa").

(** A connection of the peer [zzz] that is ready. *)
Definition established : Conn :=
  {| remotePID := zzz;
     remoteMa := addr ble "zzz";
     direction := network.DirInbound;
     ready := true;
     conn_cache := NewRingBufferMap NewNop 128;
     mp_input := [] |}.

Definition with_ready_conn : proximityTransport :=
  set_connMap (<["zzz" := established]> ∅) (listening "aaa").

(** The listener of the peer [aaa] on its own address. *)
Definition listener_aaa : Listener := newListener background (addr ble "aaa").

(** The parameters with the address of the listener as the spec describes
    it. *)
Definition spec_package : Package :=
  {| Listener_Addr_String := Listener_Addr_spec;
     NoopProximityDriver := noopDriver |}.

(** The listener of the peer [zzz] on its own address. *)
Definition listener_zzz : Listener := newListener background (addr ble "zzz").


End Example.

(** * Properties *)

(** The error kinds of the contract, as the values the transport returns. *)
Definition ErrNoListener : error := errorString msg_Dial_no_listener.
Definition ErrPeerNotLinked : error := errorString msg_Dial_not_linked.
Definition ErrAlreadyConnected : error :=
  errorString msg_Dial_already_connected.
Definition ErrListenerExists : error := errorString msg_Listen_one_listener.

(** A [BadMultiaddr] error of [Dial]: some cause, annotated by [Dial]. *)
Definition Dial_BadMultiaddr (e : error) : Prop :=
  exists cause, e = withMessage cause msg_Dial_wrong_multiaddr.

(** A [BadMultiaddr] error of [Listen]. *)
Definition Listen_BadMultiaddr (e : error) : Prop :=
  exists cause, e = withMessage cause msg_Listen_wrong_multiaddr.

(** The checks [Listen] makes on its multiaddress before it looks at the
    registry (lines 143 to 155): the multiaddress decodes under the driver's
    protocol code, and it is the default address, which can be rewritten, or
    it decodes to the local peer id. *)
Definition Listen_accepts `{!Libp2p} (t : proximityTransport)
    (localMa : ma.Multiaddr) : bool :=
  let localPID := peer.ID_String (LocalPeer (swarm t)) in
  let r := ma.ValueForProtocol localMa (ProtocolCode (driver t)) in
  negb (notnil (snd r))
  && (if String.eqb (ma.String localMa) (DefaultAddr (driver t)) then
        match ma.NewMultiaddr protocols
                (Sprintf_slash2 (ProtocolName (driver t)) localPID) with
        | inl _ => true
        | inr _ => false
        end
      else String.eqb (fst r) localPID).

(** Every transport with a listener is the one registered under its
    protocol name. *)
Definition registry_consistent (w : World) : Prop :=
  forall i t,
    transports w !! i = Some t ->
    is_Some (listener t) ->
    TransportMap w !! ProtocolName (driver t) = Some i.

(** Every registration names a transport of that protocol name, with a
    listener. *)
Definition registry_sound (w : World) : Prop :=
  forall name i,
    TransportMap w !! name = Some i ->
    exists t, transports w !! i = Some t
              /\ ProtocolName (driver t) = name
              /\ is_Some (listener t).

(** A process at its start: nothing registered, no transport listens. *)
Definition initial (w : World) : Prop :=
  TransportMap w = ∅
  /\ forall i t, transports w !! i = Some t -> listener t = None.

Section Properties.

Context `{!Libp2p} `{!Package}.

(** ** NewTransport *)

(** C10. [NewTransport] never reports failure: whatever the context, logger,
    driver, swarm and upgrader, the constructor yields a transport and a nil
    error; a nil logger is replaced by the no-op logger (named) and a nil
    driver by [NoopProximityDriver]. *)
Theorem NewTransport_never_fails (c : Context) (l : option Logger)
    (d : option ProximityDriver) (s : Swarm) (u : Upgrader) :
  exists t : proximityTransport,
    NewTransport c l d s u = (t, None)
    /\ logger t = Named (default NewNop l) "ProximityTransport"
    /\ (l = None -> nop (logger t) = true)
    /\ driver t = default NoopProximityDriver d
    /\ (d = None -> driver t = NoopProximityDriver)
    /\ swarm t = s /\ upgrader t = u /\ ctx t = c
    /\ connMap t = ∅ /\ listener t = None
    /\ cache t = NewRingBufferMap (logger t) 128.
Proof.
  eexists. split; [reflexivity|].
  destruct l as [lg|], d as [dr|]; cbn; repeat split; try done.
Qed.

(** ** Dial *)

Lemma notnil_false {A} (x : option A) : notnil x = false <-> x = None.
Proof. destruct x; cbn; split; congruence. Qed.

Lemma notnil_true {A} (x : option A) : notnil x = true <-> is_Some x.
Proof.
  destruct x; cbn; split; done.
Qed.

(** C5. Without an installed listener [Dial] fails with [NoListener],
    whatever the multiaddress, the peer id, the connection map and the
    driver: the listener check comes first. *)
Theorem Dial_no_listener (t : proximityTransport) (remoteMa : ma.Multiaddr)
    (remotePID : peer.ID) :
  listener t = None ->
  Dial t remoteMa remotePID = DialReturn (Some ErrNoListener).
Proof.
  intros Hl. unfold Dial. rewrite Hl. reflexivity.
Qed.

(** The four early returns of [Dial] and its last statement, by the
    conditions the source tests in order. *)
Lemma Dial_unfold (t : proximityTransport) (remoteMa : ma.Multiaddr)
    (remotePID : peer.ID) (l : Listener) :
  listener t = Some l ->
  Dial t remoteMa remotePID =
    let r := ma.ValueForProtocol remoteMa (ProtocolCode (driver t)) in
    if notnil (snd r)
       || negb (String.eqb (fst r) (peer.ID_String remotePID))
    then DialReturn (errors.Wrap (snd r) msg_Dial_wrong_multiaddr)
    else if negb (DialPeer (driver t) (fst r)) then
      DialReturn (Some ErrPeerNotLinked)
    else if notnil (connMap t !! fst r) then
      DialReturn (Some ErrAlreadyConnected)
    else DialNewConn remoteMa remotePID network.DirOutbound.
Proof.
  intros Hl. unfold Dial. rewrite Hl. cbn.
  destruct (ma.ValueForProtocol _ _) as [remoteAddr err]. reflexivity.
Qed.

(** C6. With a listener installed and a multiaddress that decodes to the
    string of the requested peer id, [Dial] fails with [PeerNotLinked] iff
    the driver is not linked to that address.  The check precedes the
    duplicate-connection check: an unlinked peer gets [PeerNotLinked] also
    when a connection to it is in the map, and [AlreadyConnected] is only
    returned for a linked peer. *)
Theorem Dial_link_gate (t : proximityTransport) (remoteMa : ma.Multiaddr)
    (remotePID : peer.ID) (l : Listener) (remoteAddr : string) :
  listener t = Some l ->
  ma.ValueForProtocol remoteMa (ProtocolCode (driver t)) = (remoteAddr, None) ->
  remoteAddr = peer.ID_String remotePID ->
  (Dial t remoteMa remotePID = DialReturn (Some ErrPeerNotLinked)
   <-> DialPeer (driver t) remoteAddr = false)
  /\ (DialPeer (driver t) remoteAddr = false ->
      is_Some (connMap t !! remoteAddr) ->
      Dial t remoteMa remotePID = DialReturn (Some ErrPeerNotLinked))
  /\ (Dial t remoteMa remotePID = DialReturn (Some ErrAlreadyConnected) ->
      DialPeer (driver t) remoteAddr = true).
Proof.
  intros Hl Hv Heq.
  rewrite (Dial_unfold _ _ _ _ Hl), Hv. cbn.
  rewrite Heq, String.eqb_refl. cbn.
  destruct (DialPeer (driver t) (peer.ID_String remotePID)) eqn:Hd; cbn.
  - repeat split; try done.
    destruct (notnil _); discriminate.
  - repeat split; done.
Qed.

(** The wrong-multiaddr return of [Dial]: a non-nil error when the
    multiaddress does not decode, and a nil error when it decodes to
    another string than the peer id's. *)
Lemma Dial_wrong_multiaddr (t : proximityTransport) (remoteMa : ma.Multiaddr)
    (remotePID : peer.ID) (l : Listener) (remoteAddr : string)
    (err : option error) :
  listener t = Some l ->
  ma.ValueForProtocol remoteMa (ProtocolCode (driver t)) = (remoteAddr, err) ->
  (forall e, err = Some e ->
     Dial t remoteMa remotePID =
       DialReturn (Some (withMessage e msg_Dial_wrong_multiaddr)))
  /\ (err = None -> remoteAddr <> peer.ID_String remotePID ->
      Dial t remoteMa remotePID = DialReturn None).
Proof.
  intros Hl Hv. rewrite (Dial_unfold _ _ _ _ Hl), Hv. cbn. split.
  - intros e ->. reflexivity.
  - intros -> Hne. cbn.
    destruct (String.eqb_spec remoteAddr (peer.ID_String remotePID)); done.
Qed.

(** ** ReceiveFromPeer *)

Lemma slice_bytes_length (h : Heap) (s : Slice) :
  slice_valid h s -> length (slice_bytes h s) = len s.
Proof.
  intros (buf & Hbuf & Hle). unfold slice_bytes. rewrite Hbuf. cbn.
  rewrite length_take, length_drop. lia.
Qed.

Lemma slice_bytes_app (h h' : Heap) (s : Slice) :
  slice_valid h s -> slice_bytes (h ++ h') s = slice_bytes h s.
Proof.
  intros (buf & Hbuf & _). unfold slice_bytes.
  by rewrite (lookup_app_l_Some _ _ _ _ Hbuf), Hbuf.
Qed.

(** [data := make([]byte, len(payload)); copy(data, payload)] allocates one
    buffer after the existing ones and fills it with the payload's bytes. *)
Lemma make_copy (h : Heap) (payload : Slice) :
  slice_valid h payload ->
  let data := fst (make (len payload) h) in
  let r := copy data payload (snd (make (len payload) h)) in
  data = {| ptr := length h; off := 0; len := len payload |}
  /\ fst r = len payload
  /\ snd r = h ++ [slice_bytes h payload]
  /\ slice_bytes (snd r) data = slice_bytes h payload.
Proof.
  intros Hv. pose proof (slice_bytes_length _ _ Hv) as Hlen.
  cbn. split; [reflexivity|]. split; [lia|].
  rewrite list_lookup_middle by reflexivity.
  rewrite (slice_bytes_app _ _ _ Hv), Nat.min_id.
  rewrite (take_ge (slice_bytes h payload)) by lia.
  rewrite drop_ge by (rewrite length_replicate; lia).
  rewrite app_nil_r.
  rewrite insert_app_r_alt by lia. rewrite Nat.sub_diag. cbn.
  split; [reflexivity|].
  rewrite list_lookup_middle by reflexivity. cbn.
  apply take_ge. lia.
Qed.

(** [ReceiveFromPeer] on a payload within its buffer, with the copy worked
    out. *)
Lemma ReceiveFromPeer_unfold (h : Heap) (t : proximityTransport) (p : string)
    (payload : Slice) :
  slice_valid h payload ->
  ReceiveFromPeer h t p payload =
    let data := {| ptr := length h; off := 0; len := len payload |} in
    let h' := h ++ [slice_bytes h payload] in
    match connMap t !! p with
    | Some c =>
        if ready c then
          (h', set_connMap (<[p := Conn_input_send data c]> (connMap t)) t)
        else
          (h', set_connMap
                 (<[p := Conn_cache_Add p (slice_bytes h payload) c]>
                    (connMap t)) t)
    | None => (h', set_cache (rbm_Add p (slice_bytes h payload) (cache t)) t)
    end.
Proof.
  intros Hv. destruct (make_copy h payload Hv) as (Hdata & _ & Hheap & Hbytes).
  unfold ReceiveFromPeer, isReady.
  destruct (make (len payload) h) as [d h1]. cbn [fst snd] in *.
  destruct (copy d payload h1) as [n h2]. cbn [fst snd] in *.
  subst d h2. cbv zeta. rewrite Hbytes.
  destruct (connMap t !! p) as [c|]; [|reflexivity].
  by destruct (ready c).
Qed.


Lemma rbm_queue_Add (key : string) (payload : list byte) (r : RingBufferMap) :
  rbm_queue key (rbm_Add key payload r) =
    (if decide (rbm_size r <= length (rbm_queue key r))
     then tail (rbm_queue key r) else rbm_queue key r) ++ [payload].
Proof.
  unfold rbm_queue at 1. unfold rbm_Add. cbn [rbm_cache].
  by rewrite lookup_insert_eq.
Qed.

(** C3. [ReceiveFromPeer(p, payload)] first copies the payload into a buffer
    of its own: the memory grows by one buffer holding the payload's bytes,
    the buffers of the driver are untouched, and [data] is the slice of the
    new buffer.  Then, if the connection map has no [Conn] for [p], the
    bytes of the copy are at the end of the queue of [p] in the transport's
    cache, and the connection map is as before.  If the map has a [Conn]
    that is not ready, the bytes of the copy are at the end of the queue of
    [p] in the pre-ready cache of that [Conn], and nothing is sent on its
    input pipe.  If the [Conn] is ready, the copy is the last slice sent on
    its input pipe, after the ones sent before, and its pre-ready cache is
    as before.  With a [Conn] the transport's cache is not used.  (A queue
    at capacity loses its head to the new entry.) *)
Theorem ReceiveFromPeer_routing (h : Heap) (t : proximityTransport)
    (p : string) (payload : Slice) :
  slice_valid h payload ->
  let data := {| ptr := length h; off := 0; len := len payload |} in
  let h' := fst (ReceiveFromPeer h t p payload) in
  let t' := snd (ReceiveFromPeer h t p payload) in
  let bytes := slice_bytes h payload in
  let queued (r : RingBufferMap) :=
    (if decide (rbm_size r <= length (rbm_queue p r))
     then tail (rbm_queue p r) else rbm_queue p r) ++ [bytes] in
  h' = h ++ [bytes]
  /\ slice_bytes h' data = bytes
  /\ match connMap t !! p with
     | None =>
         connMap t' = connMap t
         /\ rbm_queue p (cache t') = queued (cache t)
     | Some c =>
         cache t' = cache t
         /\ exists c',
             connMap t' !! p = Some c'
             /\ ready c' = ready c
             /\ if ready c then
                  mp_input c' = mp_input c ++ [data]
                  /\ conn_cache c' = conn_cache c
                else
                  mp_input c' = mp_input c
                  /\ rbm_queue p (conn_cache c') = queued (conn_cache c)
     end.
Proof.
  intros Hv data h' t' bytes queued. subst h' t'.
  rewrite (ReceiveFromPeer_unfold _ _ _ _ Hv). cbv zeta. fold data bytes.
  assert (Hdata : slice_bytes (h ++ [bytes]) data = bytes).
  { unfold slice_bytes at 1. subst data. cbn [ptr off len].
    rewrite list_lookup_middle by reflexivity. cbn.
    apply take_ge. subst bytes. rewrite (slice_bytes_length _ _ Hv). lia. }
  destruct (connMap t !! p) as [c|] eqn:Hc.
  - destruct (ready c) eqn:Hr; cbn [fst snd];
      (split; [reflexivity|]); (split; [exact Hdata|]);
      (split; [reflexivity|]); eexists;
      (split; [apply lookup_insert_eq|]).
    + cbn. by rewrite Hr.
    + cbn. rewrite Hr. split; [reflexivity|]. split; [reflexivity|].
      apply rbm_queue_Add.
  - cbn [fst snd]. split; [reflexivity|]. split; [exact Hdata|].
    split; [reflexivity|]. apply rbm_queue_Add.
Qed.

(** ** Multiaddresses: parsing and printing *)

Lemma append_cons (x : ascii) (a b : string) :
  String x a +:+ b = String x (a +:+ b).
Proof. reflexivity. Qed.

Lemma append_nil_l (b : string) : "" +:+ b = b.
Proof. reflexivity. Qed.

Lemma append_assoc (a b c : string) : (a +:+ b) +:+ c = a +:+ b +:+ c.
Proof.
  induction a as [|x a IH]; [reflexivity|].
  by rewrite !append_cons, IH.
Qed.

Lemma append_nil_r (a : string) : a +:+ "" = a.
Proof.
  induction a as [|x a IH]; [reflexivity|]. by rewrite append_cons, IH.
Qed.

Lemma Split_cons (s : string) : exists seg segs, ma.Split s = seg :: segs.
Proof.
  induction s as [|c s (seg & segs & IH)]; cbn; [by eauto|].
  destruct (ma.is_slash c); [by eauto|]. rewrite IH. by eauto.
Qed.

Lemma is_slash_true (c : ascii) : ma.is_slash c = true -> c = "/"%char.
Proof. unfold ma.is_slash. apply Ascii.eqb_eq. Qed.

Lemma concat_cons (x y : string) (l : list string) :
  String.concat "/" (x :: y :: l) = x +:+ "/" +:+ String.concat "/" (y :: l).
Proof. reflexivity. Qed.

(** [strings.Join(strings.Split(s, "/"), "/") == s] *)
Lemma concat_Split (s : string) : String.concat "/" (ma.Split s) = s.
Proof.
  induction s as [|c s IH]; [reflexivity|].
  cbn [ma.Split].
  destruct (Split_cons s) as (seg & segs & Hs). rewrite Hs in IH |- *.
  destruct (ma.is_slash c) eqn:Hc.
  - apply is_slash_true in Hc as ->. by rewrite concat_cons, IH.
  - destruct segs as [|y l].
    + cbn [String.concat] in IH |- *. by rewrite IH.
    + rewrite concat_cons in IH |- *. by rewrite append_cons, IH.
Qed.

(** A protocol found by name has that name. *)
Lemma ProtocolWithName_Name (ps : list ma.Protocol) (name : string) :
  ma.Code (ma.ProtocolWithName ps name) <> 0%Z ->
  ma.Name (ma.ProtocolWithName ps name) = name.
Proof.
  unfold ma.ProtocolWithName.
  destruct (find _ ps) as [p|] eqn:Hf; cbn; [|done].
  intros _. apply find_some in Hf as [_ Hn]. by apply String.eqb_eq.
Qed.

(** Printing the components parsed from a list of segments gives the
    segments back, each after a slash. *)
Lemma parseComponents_String (ps : list ma.Protocol) (n : nat) :
  forall (sp : list string) m,
    length sp <= n ->
    ma.parseComponents ps sp = inl m ->
    ma.String m =
      match sp with [] => "" | _ => "/" +:+ String.concat "/" sp end.
Proof.
  induction n as [|n IH]; intros sp m Hn Hp.
  - destruct sp; [|cbn in Hn; lia]. cbn in Hp. by injection Hp as <-.
  - destruct sp as [|name [|v rest]].
    + cbn in Hp. by injection Hp as <-.
    + cbn in Hp. destruct (Z.eqb _ 0); discriminate.
    + cbn [ma.parseComponents] in Hp. cbv zeta in Hp.
      destruct (Z.eqb_spec (ma.Code (ma.ProtocolWithName ps name)) 0)
        as [|Hcode]; [discriminate|].
      destruct (ma.parseComponents ps rest) as [m'|e] eqn:Hrest;
        [|discriminate].
      injection Hp as <-.
      cbn [ma.String ma.proto ma.value].
      rewrite (ProtocolWithName_Name _ _ Hcode).
      assert (Hle : length rest <= n) by (cbn in Hn; lia).
      rewrite (IH rest m' Hle Hrest), concat_cons.
      destruct rest as [|r rest].
      * by rewrite append_nil_r.
      * by rewrite (concat_cons v).
Qed.

(** A multiaddress prints as the text it was parsed from, when the text has
    no trailing slash. *)
Lemma NewMultiaddr_String (ps : list ma.Protocol) (s : string) m :
  ma.NewMultiaddr ps s = inl m ->
  ma.TrimRight s = s ->
  ma.String m = s.
Proof.
  unfold ma.NewMultiaddr. intros Hp Ht. rewrite Ht in Hp.
  pose proof (concat_Split s) as Hs.
  destruct (ma.Split s) as [|first sp]; [discriminate|].
  destruct (String.eqb_spec first "") as [->|]; [|discriminate].
  cbn [negb] in Hp. destruct sp as [|x sp]; [discriminate|].
  rewrite (parseComponents_String ps _ _ m (Nat.le_refl _) Hp).
  cbn [String.concat] in Hs. exact Hs.
Qed.

Lemma append_not_nil (a b : string) : b <> "" -> a +:+ b <> "".
Proof. destruct a; cbn; [done | discriminate]. Qed.

Lemma TrimRight_append (a b : string) :
  b <> "" -> ma.TrimRight b = b -> ma.TrimRight (a +:+ b) = a +:+ b.
Proof.
  intros Hb Ht. induction a as [|c a IH]; [exact Ht|].
  rewrite append_cons. cbn [ma.TrimRight]. rewrite IH.
  destruct (String.eqb_spec (a +:+ b) "") as [He|_].
  - by apply append_not_nil in He.
  - by rewrite andb_false_r.
Qed.

Lemma TrimRight_Sprintf (name id : string) :
  id <> "" -> ma.TrimRight id = id ->
  ma.TrimRight (Sprintf_slash2 name id) = Sprintf_slash2 name id.
Proof.
  intros Hid Ht. unfold Sprintf_slash2.
  rewrite <- !append_assoc. by apply TrimRight_append.
Qed.

Lemma Split_slash_free (s : string) :
  ma.slash_free s = true -> ma.Split s = [s].
Proof.
  induction s as [|c s IH]; [reflexivity|]. cbn [ma.slash_free ma.Split].
  intros [Hc Hs]%andb_true_iff. apply negb_true_iff in Hc.
  by rewrite Hc, (IH Hs).
Qed.

Lemma Split_slash_free_append (a b : string) :
  ma.slash_free a = true ->
  ma.Split (a +:+ "/" +:+ b) = a :: ma.Split b.
Proof.
  induction a as [|c a IH]; [reflexivity|]. cbn [ma.slash_free].
  intros [Hc Ha]%andb_true_iff. apply negb_true_iff in Hc.
  rewrite append_cons. cbn [ma.Split]. by rewrite Hc, (IH Ha).
Qed.

Lemma TrimRight_slash_free (s : string) :
  ma.slash_free s = true -> ma.TrimRight s = s.
Proof.
  induction s as [|c s IH]; [reflexivity|]. cbn [ma.slash_free ma.TrimRight].
  intros [Hc Hs]%andb_true_iff. apply negb_true_iff in Hc.
  by rewrite Hc, (IH Hs).
Qed.

(** The multiaddress [/<name>/<id>] of a registered protocol and a non-empty
    text without slash is well formed: one component, of that protocol, with
    the text as its value.  The constructions of [Listen], [HandleFoundPeer]
    and [HandleLostPeer] do not panic then. *)
Lemma NewMultiaddr_Sprintf (ps : list ma.Protocol) (name id : string) :
  ma.slash_free name = true ->
  ma.slash_free id = true ->
  id <> "" ->
  ma.Code (ma.ProtocolWithName ps name) <> 0%Z ->
  ma.NewMultiaddr ps (Sprintf_slash2 name id) =
    inl [{| ma.proto := ma.ProtocolWithName ps name; ma.value := id |}].
Proof.
  intros Hn Hi Hne Hc. unfold ma.NewMultiaddr.
  rewrite TrimRight_Sprintf by (by try apply TrimRight_slash_free).
  unfold Sprintf_slash2.
  change ("/" +:+ name +:+ "/" +:+ id)
    with ("" +:+ "/" +:+ (name +:+ "/" +:+ id)).
  rewrite (Split_slash_free_append "") by reflexivity.
  rewrite (Split_slash_free_append name) by exact Hn.
  rewrite (Split_slash_free id) by exact Hi.
  cbn. by destruct (Z.eqb_spec (ma.Code (ma.ProtocolWithName ps name)) 0).
Qed.

(** ** Listen *)

(** The returns of [Listen], by the conditions the source tests in order. *)
Lemma Listen_unfold (tm : gmap string nat) (self : nat)
    (t : proximityTransport) (localMa : ma.Multiaddr) :
  Listen tm self t localMa =
    let localPID := peer.ID_String (LocalPeer (swarm t)) in
    let r := ma.ValueForProtocol localMa (ProtocolCode (driver t)) in
    let is_default :=
      String.eqb (ma.String localMa) (DefaultAddr (driver t)) in
    if notnil (snd r) || (negb is_default && negb (String.eqb (fst r) localPID))
    then (ListenReturn None (errors.Wrap (snd r) msg_Listen_wrong_multiaddr),
          tm, t)
    else
      match (if is_default then
               ma.NewMultiaddr protocols
                 (Sprintf_slash2 (ProtocolName (driver t)) localPID)
             else inl localMa) with
      | inr e => (ListenPanic e, tm, t)
      | inl m =>
          if notnil (tm !! ProtocolName (driver t)) || notnil (listener t)
          then (ListenReturn None (Some ErrListenerExists), tm, t)
          else
            let l := newListener (ctx t) m in
            (ListenReturn (Some l) None,
             <[ProtocolName (driver t) := self]> tm,
             set_listener (Some l) t)
      end.
Proof.
  unfold Listen. cbv zeta.
  destruct (ma.ValueForProtocol localMa _) as [localAddr [e|]]; cbn [fst snd];
    [reflexivity|]. cbn [notnil orb].
  destruct (String.eqb (ma.String localMa) _); cbn [negb andb].
  - destruct (ma.NewMultiaddr _ _); reflexivity.
  - destruct (String.eqb localAddr _); reflexivity.
Qed.

(** The wrong-multiaddr return of [Listen]: a non-nil error when the
    multiaddress does not decode, and a nil error when it decodes to another
    string than the local peer id and is not the default address.  In both
    cases no listener is returned and nothing is written. *)
Lemma Listen_wrong_multiaddr (tm : gmap string nat) (self : nat)
    (t : proximityTransport) (localMa : ma.Multiaddr) (localAddr : string)
    (err : option error) :
  ma.ValueForProtocol localMa (ProtocolCode (driver t)) = (localAddr, err) ->
  (forall e, err = Some e ->
     Listen tm self t localMa =
       (ListenReturn None (Some (withMessage e msg_Listen_wrong_multiaddr)),
        tm, t))
  /\ (err = None ->
      ma.String localMa <> DefaultAddr (driver t) ->
      localAddr <> peer.ID_String (LocalPeer (swarm t)) ->
      Listen tm self t localMa = (ListenReturn None None, tm, t)).
Proof.
  intros Hv. rewrite Listen_unfold, Hv. cbn. split.
  - intros e ->. reflexivity.
  - intros -> Hd Hp. cbn.
    destruct (String.eqb_spec (ma.String localMa) (DefaultAddr (driver t)));
      [done|].
    destruct (String.eqb_spec localAddr (peer.ID_String (LocalPeer (swarm t))));
      done.
Qed.

(** What a successful [Listen] did. *)
Lemma Listen_success (tm tm' : gmap string nat) (self : nat)
    (t t' : proximityTransport) (localMa : ma.Multiaddr) (l : Listener)
    (err : option error) :
  Listen tm self t localMa = (ListenReturn (Some l) err, tm', t') ->
  err = None
  /\ tm !! ProtocolName (driver t) = None
  /\ listener t = None
  /\ tm' = <[ProtocolName (driver t) := self]> tm
  /\ t' = set_listener (Some l) t
  /\ (exists m, l = newListener (ctx t) m
        /\ if String.eqb (ma.String localMa) (DefaultAddr (driver t)) then
             ma.NewMultiaddr protocols
               (Sprintf_slash2 (ProtocolName (driver t))
                  (peer.ID_String (LocalPeer (swarm t)))) = inl m
           else m = localMa).
Proof.
  rewrite Listen_unfold. cbv zeta.
  destruct (_ || _); [discriminate|].
  destruct (String.eqb (ma.String localMa) _).
  - destruct (ma.NewMultiaddr _ _) as [m|e]; [|discriminate].
    destruct (notnil (tm !! _)) eqn:Htm; [discriminate|].
    destruct (notnil (listener t)) eqn:Hl; [discriminate|]. cbn.
    intros [= <- <- <- <-]. apply notnil_false in Htm, Hl.
    repeat split; try done. by exists m.
  - destruct (notnil (tm !! _)) eqn:Htm; [discriminate|].
    destruct (notnil (listener t)) eqn:Hl; [discriminate|]. cbn.
    intros [= <- <- <- <-]. apply notnil_false in Htm, Hl.
    repeat split; try done. by exists localMa.
Qed.

(** The listener [Listen] installs has a multiaddress that decodes, under
    the driver's protocol code, to the string of the local peer id: by the
    check on the multiaddress, or by the rewriting of the default address
    when the driver's protocol name is registered with the driver's protocol
    code. *)
Lemma Listen_listener_decodes (tm tm' : gmap string nat) (self : nat)
    (t t' : proximityTransport) (ma0 : ma.Multiaddr) (l : Listener)
    (err : option error) :
  Listen tm self t ma0 = (ListenReturn (Some l) err, tm', t') ->
  ma.slash_free (ProtocolName (driver t)) = true ->
  ma.slash_free (peer.ID_String (LocalPeer (swarm t))) = true ->
  peer.ID_String (LocalPeer (swarm t)) <> "" ->
  ma.Code (ma.ProtocolWithName protocols (ProtocolName (driver t)))
    = ProtocolCode (driver t) ->
  ProtocolCode (driver t) <> 0%Z ->
  ma.ValueForProtocol (localMa l) (ProtocolCode (driver t))
    = (peer.ID_String (LocalPeer (swarm t)), None).
Proof.
  intros Hl Hn Hp Hne Hcode Hnz.
  pose proof Hl as Hs.
  apply Listen_success in Hs as (_ & _ & _ & _ & _ & m & -> & Hm).
  rewrite Listen_unfold in Hl. cbv zeta in Hl.
  destruct (ma.ValueForProtocol ma0 _) as [localAddr e] eqn:Hv.
  cbn [fst snd] in Hl.
  destruct e as [e|]; [discriminate|]. cbn [notnil orb] in Hl.
  destruct (String.eqb (ma.String ma0) _) eqn:Hdef.
  - rewrite NewMultiaddr_Sprintf in Hm by (done || by rewrite Hcode).
    injection Hm as <-. cbn. by rewrite Hcode, Z.eqb_refl.
  - subst m. cbn [negb andb] in Hl.
    destruct (String.eqb_spec localAddr (peer.ID_String (LocalPeer (swarm t))))
      as [->|]; [|discriminate].
    exact Hv.
Qed.

(** C9. When [Listen] is called with a multiaddress whose text is the
    driver's default address and returns a listener, the address of the
    listener is the multiaddress written [/<protocolName>/<localPeerID>],
    with the string form of the swarm's local peer id: it is what
    [ma.NewMultiaddr] makes of that text, and it prints as that text (a peer
    id's string form is never empty and has no slash at its end). *)
Theorem Listen_default_addr (tm tm' : gmap string nat) (self : nat)
    (t t' : proximityTransport) (defaultMa : ma.Multiaddr) (l : Listener)
    (err : option error) :
  ma.String defaultMa = DefaultAddr (driver t) ->
  Listen tm self t defaultMa = (ListenReturn (Some l) err, tm', t') ->
  let localPID := peer.ID_String (LocalPeer (swarm t)) in
  let text := Sprintf_slash2 (ProtocolName (driver t)) localPID in
  ma.NewMultiaddr protocols text = inl (localMa l)
  /\ listener t' = Some l
  /\ (localPID <> "" -> ma.TrimRight localPID = localPID ->
      ma.String (localMa l) = text).
Proof.
  intros Hd Hl localPID text.
  apply Listen_success in Hl as (_ & _ & _ & _ & -> & m & -> & Hm).
  rewrite Hd, String.eqb_refl in Hm. fold localPID text in Hm.
  cbn. repeat split; [exact Hm|].
  intros Hne Ht. apply (NewMultiaddr_String _ _ _ Hm).
  by apply TrimRight_Sprintf.
Qed.

(** *** One listener per transport and per protocol name *)

(** With a transport registered under the protocol name, or a listener in the
    slot, [Listen] returns no listener and writes nothing; it answers
    [ListenerExists] when the multiaddress passed its checks. *)
Lemma Listen_refuses (tm : gmap string nat) (self : nat)
    (t : proximityTransport) (localMa : ma.Multiaddr) :
  is_Some (tm !! ProtocolName (driver t)) \/ is_Some (listener t) ->
  (exists r, Listen tm self t localMa = (r, tm, t)
             /\ forall l e, r <> ListenReturn (Some l) e)
  /\ (Listen_accepts t localMa = true ->
      Listen tm self t localMa =
        (ListenReturn None (Some ErrListenerExists), tm, t)).
Proof.
  intros Hex.
  assert (Hor : notnil (tm !! ProtocolName (driver t)) || notnil (listener t)
                = true).
  { apply orb_true_iff. destruct Hex as [Hex|Hex]; [left|right];
      by apply notnil_true. }
  rewrite Listen_unfold. unfold Listen_accepts. cbv zeta.
  destruct (ma.ValueForProtocol localMa _) as [localAddr [e|]]; cbn [fst snd].
  - cbn. split; [|done]. eexists. split; [reflexivity|done].
  - cbn [notnil orb negb andb].
    destruct (String.eqb (ma.String localMa) _); cbn [negb andb].
    + destruct (ma.NewMultiaddr _ _) as [m|e].
      * rewrite Hor. split; [|done]. eexists. split; [reflexivity|done].
      * split; [|done]. eexists. split; [reflexivity|done].
    + destruct (String.eqb localAddr _); cbn [negb].
      * rewrite Hor. split; [|done]. eexists. split; [reflexivity|done].
      * split; [|done]. eexists. split; [reflexivity|done].
Qed.

Lemma Listen_keeps (tm : gmap string nat) (self : nat)
    (t : proximityTransport) (localMa : ma.Multiaddr) :
  let '(_, tm', t') := Listen tm self t localMa in
  (forall name, is_Some (tm !! name) -> is_Some (tm' !! name))
  /\ driver t' = driver t
  /\ (is_Some (listener t) -> is_Some (listener t')).
Proof.
  rewrite Listen_unfold. cbv zeta.
  destruct (_ || _); [done|].
  destruct (if String.eqb _ _ then _ else _) as [m|e]; [|done].
  destruct (_ || _); [done|]. cbn. repeat split; [|done].
  intros name Hn. rewrite lookup_insert. by case_decide.
Qed.

Lemma Dial_state_keeps (t : proximityTransport) (remoteMa : ma.Multiaddr)
    (remotePID : peer.ID) :
  driver (Dial_state t remoteMa remotePID) = driver t
  /\ listener (Dial_state t remoteMa remotePID) = listener t.
Proof.
  unfold Dial_state. destruct (Dial t remoteMa remotePID) as [e|m p d]; [done|].
  unfold newConn. by destruct (connMap t !! _).
Qed.

Lemma ReceiveFromPeer_keeps (h : Heap) (t : proximityTransport)
    (p : string) (payload : Slice) :
  driver (snd (ReceiveFromPeer h t p payload)) = driver t
  /\ listener (snd (ReceiveFromPeer h t p payload)) = listener t.
Proof.
  unfold ReceiveFromPeer.
  destruct (make _ h) as [d h1]. destruct (copy d payload h1) as [n h2].
  destruct (connMap t !! p) as [c|]; [|done].
  destruct (negb (isReady c)); [|done]. by destruct (negb (ready c)).
Qed.

Lemma HandleFoundPeer_prepare_keeps (t t0 : proximityTransport) (p : string)
    (remotePID : peer.ID) (remoteMa : ma.Multiaddr) (l : Listener) :
  HandleFoundPeer_prepare t p = inl (remotePID, remoteMa, l, t0) ->
  driver t0 = driver t /\ listener t0 = listener t /\ listener t = Some l
  /\ connMap t0 = connMap t.
Proof.
  unfold HandleFoundPeer_prepare.
  destruct (peer_Decode p); [|done].
  destruct (ma.NewMultiaddr _ _); [|done].
  destruct (listener t) as [l'|] eqn:Hl; [|done].
  destruct (ctx_Err _); [done|]. by intros [= <- <- <- <-].
Qed.

Lemma HandleFoundPeer_keeps (t : proximityTransport) (p : string)
    (sel : SelectCase) :
  driver (snd (HandleFoundPeer t p sel)) = driver t
  /\ (is_Some (listener t) -> is_Some (listener (snd (HandleFoundPeer t p sel)))).
Proof.
  unfold HandleFoundPeer.
  destruct (HandleFoundPeer_prepare t p) as [[[[remotePID remoteMa] l] t0]|r]
    eqn:Hp; [|done].
  apply HandleFoundPeer_prepare_keeps in Hp as (Hd & Hl & Hsome & _).
  destruct (String.ltb _ _); cbn.
  - rewrite Hd, Hl, Hsome. done.
  - destruct sel; cbn; rewrite Hd, ?Hl, Hsome; done.
Qed.

Lemma HandleLostPeer_keeps (t : proximityTransport) (p : string) :
  driver (snd (HandleLostPeer t p)) = driver t
  /\ listener (snd (HandleLostPeer t p)) = listener t
  /\ cache (snd (HandleLostPeer t p)) = cache t
  /\ connMap (snd (HandleLostPeer t p)) = connMap t.
Proof.
  unfold HandleLostPeer.
  destruct (peer_Decode p); [|done]. by destruct (ma.NewMultiaddr _ _).
Qed.

(** No call removes a registration, changes the driver of a transport or
    empties a listener slot. *)
Lemma step_keeps (w : World) (c : Call) :
  (forall name, is_Some (TransportMap w !! name) ->
                is_Some (TransportMap (step w c) !! name))
  /\ (forall i t, transports w !! i = Some t ->
        exists t', transports (step w c) !! i = Some t'
                   /\ driver t' = driver t
                   /\ (is_Some (listener t) -> is_Some (listener t'))).
Proof.
  assert (Hup : forall self (f : proximityTransport -> proximityTransport),
    (forall t, driver (f t) = driver t
               /\ (is_Some (listener t) -> is_Some (listener (f t)))) ->
    (forall name, is_Some (TransportMap w !! name) ->
                  is_Some (TransportMap (update_transport w self f) !! name))
    /\ (forall i t, transports w !! i = Some t ->
          exists t', transports (update_transport w self f) !! i = Some t'
                     /\ driver t' = driver t
                     /\ (is_Some (listener t) -> is_Some (listener t')))).
  { intros self f Hf. unfold update_transport.
    destruct (transports w !! self) as [ts|] eqn:Hs; cbn; [|by eauto].
    split; [done|]. intros i t Hi.
    destruct (decide (self = i)) as [->|Hne].
    - rewrite lookup_insert_eq. eexists. split; [reflexivity|].
      rewrite Hs in Hi. injection Hi as ->. apply Hf.
    - rewrite lookup_insert_ne by done. by eauto. }
  destruct c as [self remoteMa remotePID | self localMa
                | self remotePID payload | self p sel | self p]; cbn [step].
  - apply Hup. intros t.
    destruct (Dial_state_keeps t remoteMa remotePID) as (Hd & Hl).
    by rewrite Hd, Hl.
  - unfold World_Listen.
    destruct (transports w !! self) as [ts|] eqn:Hs; cbn; [|by eauto].
    pose proof (Listen_keeps (TransportMap w) self ts localMa) as Hk.
    destruct (Listen _ _ _ _) as [[r tm'] t']. destruct Hk as (Htm & Hd & Hl).
    cbn. split; [exact Htm|]. intros i t Hi.
    destruct (decide (self = i)) as [->|Hne].
    + rewrite lookup_insert_eq. eexists. split; [reflexivity|].
      rewrite Hs in Hi. by injection Hi as ->.
    + rewrite lookup_insert_ne by done. by eauto.
  - destruct (transports w !! self) as [ts|] eqn:Hs; [|by eauto].
    pose proof (ReceiveFromPeer_keeps (heap w) ts remotePID payload) as Hk.
    destruct (ReceiveFromPeer _ _ _ _) as [h' t']. destruct Hk as (Hd & Hl).
    cbn [fst snd TransportMap transports] in Hd, Hl |- *.
    split; [done|]. intros i t Hi.
    destruct (decide (self = i)) as [->|Hne].
    + rewrite lookup_insert_eq. eexists. split; [reflexivity|].
      rewrite Hs in Hi. injection Hi as ->. by rewrite Hd, Hl.
    + rewrite lookup_insert_ne by done. by eauto.
  - apply Hup. intros t. apply HandleFoundPeer_keeps.
  - apply Hup. intros t.
    destruct (HandleLostPeer_keeps t p) as (Hd & Hl & _). by rewrite Hd, Hl.
Qed.

Lemma run_keeps (calls : list Call) (w : World) :
  (forall name, is_Some (TransportMap w !! name) ->
                is_Some (TransportMap (run calls w) !! name))
  /\ (forall i t, transports w !! i = Some t ->
        exists t', transports (run calls w) !! i = Some t'
                   /\ driver t' = driver t
                   /\ (is_Some (listener t) -> is_Some (listener t'))).
Proof.
  revert w. induction calls as [|c calls IH]; intros w; cbn.
  - by eauto.
  - destruct (step_keeps w c) as [Htm Ht].
    destruct (IH (step w c)) as [Htm' Ht']. split.
    + intros name Hn. by apply Htm', Htm.
    + intros i t Hi. destruct (Ht i t Hi) as (t1 & Hi1 & Hd1 & Hl1).
      destruct (Ht' i t1 Hi1) as (t2 & Hi2 & Hd2 & Hl2).
      exists t2. rewrite Hd2, Hd1. by eauto.
Qed.

Lemma World_Listen_refused (w : World) (self : nat) (t : proximityTransport)
    (localMa : ma.Multiaddr) (r : ListenResult) :
  transports w !! self = Some t ->
  Listen (TransportMap w) self t localMa = (r, TransportMap w, t) ->
  World_Listen w self localMa = (Some r, w).
Proof.
  intros Ht Hl. unfold World_Listen. rewrite Ht, Hl.
  destruct w as [tm ts h]. cbn in Ht |- *. by rewrite (insert_id _ _ _ Ht).
Qed.

(** C7, as the code has it.  After a transport completed [Listen], and after
    any further calls, [Listen] on that transport or on any transport of the
    same protocol name returns no listener and leaves the registry, the
    listener slots and the rest of the state as they are; and it fails with
    [ListenerExists] when its multiaddress passes the checks [Listen] makes
    first. *)
Theorem Listen_singleton (w w1 : World) (self other : nat)
    (localMa localMa' : ma.Multiaddr) (l : Listener) (err : option error)
    (calls : list Call) (t_self t_other : proximityTransport) :
  World_Listen w self localMa = (Some (ListenReturn (Some l) err), w1) ->
  transports w1 !! self = Some t_self ->
  transports (run calls w1) !! other = Some t_other ->
  other = self
  \/ ProtocolName (driver t_other) = ProtocolName (driver t_self) ->
  (exists r,
      World_Listen (run calls w1) other localMa' = (Some r, run calls w1)
      /\ forall l' e, r <> ListenReturn (Some l') e)
  /\ (Listen_accepts t_other localMa' = true ->
      World_Listen (run calls w1) other localMa' =
        (Some (ListenReturn None (Some ErrListenerExists)), run calls w1)).
Proof.
  intros Hw Hself Hother Hsame.
  assert (Hreg : is_Some (TransportMap w1 !! ProtocolName (driver t_self))).
  { unfold World_Listen in Hw.
    destruct (transports w !! self) as [t|]; [|discriminate].
    destruct (Listen _ _ _ _) as [[r tm'] t'] eqn:Hl.
    injection Hw as -> <-. cbn in Hself |- *.
    rewrite lookup_insert_eq in Hself. injection Hself as <-.
    apply Listen_success in Hl as (_ & _ & _ & -> & -> & _). cbn.
    rewrite lookup_insert_eq. done. }
  destruct (run_keeps calls w1) as [Htm Hts].
  assert (Hname : ProtocolName (driver t_other) = ProtocolName (driver t_self)).
  { destruct Hsame as [->|Hn]; [|exact Hn].
    destruct (Hts _ _ Hself) as (t2 & Ht2 & Hd & _).
    rewrite Hother in Ht2. injection Ht2 as <-. by rewrite Hd. }
  apply Htm in Hreg. rewrite <- Hname in Hreg.
  destruct (Listen_refuses (TransportMap (run calls w1)) other t_other localMa'
              (or_introl Hreg)) as [(r & Hr & Hno) Hacc].
  split.
  - exists r. split; [|exact Hno]. by apply (World_Listen_refused _ _ t_other).
  - intros Ha. apply (World_Listen_refused _ _ t_other); [done|]. by apply Hacc.
Qed.

(** ** HandleFoundPeer *)

(** With a peer id that decodes, a well-formed multiaddress and a running
    listener, [HandleFoundPeer] reaches the election, in the state where the
    address is written to the peerstore and the peer's entry of the
    transport's cache is deleted. *)
Lemma HandleFoundPeer_prepare_running (t : proximityTransport) (p : string)
    (remotePID : peer.ID) (remoteMa : ma.Multiaddr) (l : Listener) :
  peer_Decode p = inl remotePID ->
  ma.NewMultiaddr protocols (Sprintf_slash2 (ProtocolName (driver t)) p)
    = inl remoteMa ->
  listener t = Some l ->
  ctx_Err (listener_ctx l) = false ->
  HandleFoundPeer_prepare t p =
    inl (remotePID, remoteMa, l,
         set_cache (rbm_Delete p (cache t))
           (set_swarm
              (Peerstore_call
                 (pstore.AddAddr remotePID remoteMa pstore.TempAddrTTL)
                 (swarm t)) t)).
Proof.
  intros Hd Hm Hl Hc. unfold HandleFoundPeer_prepare.
  by rewrite Hd, Hm, Hl, Hc.
Qed.

(** The election reads the address of the listener: [HandleFoundPeer] dials
    iff [listener.Addr().String()] is smaller than the remote peer-id
    string. *)
Lemma HandleFoundPeer_election_addr (t : proximityTransport) (p : string)
    (remotePID : peer.ID) (remoteMa : ma.Multiaddr) (l : Listener)
    (sel : SelectCase) :
  peer_Decode p = inl remotePID ->
  ma.NewMultiaddr protocols (Sprintf_slash2 (ProtocolName (driver t)) p)
    = inl remoteMa ->
  listener t = Some l ->
  ctx_Err (listener_ctx l) = false ->
  let t0 :=
    set_cache (rbm_Delete p (cache t))
      (set_swarm
         (Peerstore_call
            (pstore.AddAddr remotePID remoteMa pstore.TempAddrTTL)
            (swarm t)) t) in
  let r := {| req_remoteMa := remoteMa; req_remotePID := remotePID |} in
  HandleFoundPeer t p sel =
    if String.ltb (Listener_Addr_String l) p then
      (FoundOutgoing
         {| go_ctx := listener_ctx l;
            go_pi := {| peer.AddrInfo_ID := remotePID;
                        peer.Addrs := [remoteMa] |} |}, t0)
    else
      match sel with
      | CaseSend =>
          (FoundIncoming r, set_listener (Some (Listener_send r l)) t0)
      | CaseDone => (FoundIncomingDone r, t0)
      end.
Proof.
  intros Hd Hm Hl Hc t0 r. unfold HandleFoundPeer.
  rewrite (HandleFoundPeer_prepare_running _ _ _ _ _ Hd Hm Hl Hc).
  fold t0 r. destruct (String.ltb _ _); [reflexivity|].
  destruct sel; [|reflexivity].
  replace (listener t0) with (Some l) by (symmetry; exact Hl). reflexivity.
Qed.

(** If the address the listener reports is the bare string of the local peer
    id, the election is the one the comments of the source announce:
    [HandleFoundPeer] dials iff the local peer-id string is smaller than the
    remote one, and accepts otherwise, the [connReq] of the remote peer being
    the last request handed to the listener once the accept side took it. *)
Lemma HandleFoundPeer_election (t : proximityTransport) (p : string)
    (remotePID : peer.ID) (remoteMa : ma.Multiaddr) (l : Listener)
    (sel : SelectCase) :
  peer_Decode p = inl remotePID ->
  ma.NewMultiaddr protocols (Sprintf_slash2 (ProtocolName (driver t)) p)
    = inl remoteMa ->
  listener t = Some l ->
  ctx_Err (listener_ctx l) = false ->
  Listener_Addr_String l = peer.ID_String (LocalPeer (swarm t)) ->
  let local := peer.ID_String (LocalPeer (swarm t)) in
  let res := fst (HandleFoundPeer t p sel) in
  let t' := snd (HandleFoundPeer t p sel) in
  let r := {| req_remoteMa := remoteMa; req_remotePID := remotePID |} in
  ((exists g, res = FoundOutgoing g) <-> String.ltb local p = true)
  /\ (String.ltb local p = true ->
      res = FoundOutgoing
              {| go_ctx := listener_ctx l;
                 go_pi := {| peer.AddrInfo_ID := remotePID;
                             peer.Addrs := [remoteMa] |} |}
      /\ Found_returns res = Some true
      /\ (inboundConnReq <$> listener t') = Some (inboundConnReq l))
  /\ (String.ltb local p = false ->
      match sel with
      | CaseSend =>
          res = FoundIncoming r
          /\ Found_returns res = Some true
          /\ (inboundConnReq <$> listener t')
             = Some (inboundConnReq l ++ [r])
      | CaseDone =>
          res = FoundIncomingDone r
          /\ Found_returns res = Some false
          /\ (inboundConnReq <$> listener t') = Some (inboundConnReq l)
      end).
Proof.
  intros Hd Hm Hl Hc Haddr local res t' r. subst res t'.
  rewrite (HandleFoundPeer_election_addr _ _ _ _ _ sel Hd Hm Hl Hc).
  rewrite Haddr. fold local r.
  destruct (String.ltb local p).
  - cbn. rewrite Hl. repeat split; try done. by eauto.
  - split; [|split; [done|]].
    + split; [|done]. intros [g Hg]. destruct sel; discriminate.
    + intros _. destruct sel; cbn; rewrite ?Hl; by repeat split.
Qed.

Lemma ltb_slash (s rest : string) (ch : ascii) :
  Ascii.compare "/" ch = Lt ->
  String.ltb ("/" +:+ s) (String ch rest) = true.
Proof.
  intros Hch. unfold String.ltb. rewrite append_cons. cbn [String.compare].
  by rewrite Hch.
Qed.

(** If the address the listener reports is its multiaddress, as the spec
    describes it, the election does not look at the local peer id: the text
    of a multiaddress begins with a slash, which is smaller than the first
    character of a remote id that begins with a digit or a letter, and
    [HandleFoundPeer] dials, whichever of the two ids is the smaller. *)
Lemma HandleFoundPeer_election_spec_addr (t : proximityTransport)
    (ch : ascii) (rest : string) (remotePID : peer.ID)
    (remoteMa : ma.Multiaddr) (l : Listener) (sel : SelectCase) :
  let p := String ch rest in
  peer_Decode p = inl remotePID ->
  ma.NewMultiaddr protocols (Sprintf_slash2 (ProtocolName (driver t)) p)
    = inl remoteMa ->
  listener t = Some l ->
  ctx_Err (listener_ctx l) = false ->
  Listener_Addr_String l = Listener_Addr_spec l ->
  localMa l <> [] ->
  Ascii.compare "/" ch = Lt ->
  fst (HandleFoundPeer t p sel)
  = FoundOutgoing
      {| go_ctx := listener_ctx l;
         go_pi := {| peer.AddrInfo_ID := remotePID;
                     peer.Addrs := [remoteMa] |} |}.
Proof.
  intros p Hd Hm Hl Hc Haddr Hne Hch.
  rewrite (HandleFoundPeer_election_addr _ _ _ _ _ sel Hd Hm Hl Hc).
  rewrite Haddr. unfold Listener_Addr_spec.
  destruct (localMa l) as [|c m]; [done|]. cbn [ma.String]. subst p.
  by rewrite (ltb_slash _ _ _ Hch).
Qed.

(** C8. Within [HandleFoundPeer(p)], when the peer id decodes and a listener
    is running, the entry of [p] in the transport's cache is deleted before
    the election is evaluated, and the election leaves the cache alone.
    Hence after [HandleLostPeer(p)], which keeps the cache as it is, and
    [HandleFoundPeer(p)], the entry of [p] is empty at the election: the
    payloads cached before are dropped. *)
Theorem HandleFoundPeer_flushes_cache (t : proximityTransport) (p : string)
    (remotePID : peer.ID) (remoteMa : ma.Multiaddr) (l : Listener) :
  peer_Decode p = inl remotePID ->
  ma.NewMultiaddr protocols (Sprintf_slash2 (ProtocolName (driver t)) p)
    = inl remoteMa ->
  listener t = Some l ->
  ctx_Err (listener_ctx l) = false ->
  (exists t0,
      HandleFoundPeer_prepare t p = inl (remotePID, remoteMa, l, t0)
      /\ rbm_cache (cache t0) !! p = None
      /\ rbm_queue p (cache t0) = []
      /\ forall sel, cache (snd (HandleFoundPeer t p sel)) = cache t0)
  /\ (let t1 := snd (HandleLostPeer t p) in
      cache t1 = cache t
      /\ exists t0,
          HandleFoundPeer_prepare t1 p = inl (remotePID, remoteMa, l, t0)
          /\ rbm_cache (cache t0) !! p = None
          /\ rbm_queue p (cache t0) = []
          /\ forall sel, cache (snd (HandleFoundPeer t1 p sel)) = cache t0).
Proof.
  assert (Hgen : forall t : proximityTransport,
    peer_Decode p = inl remotePID ->
    ma.NewMultiaddr protocols (Sprintf_slash2 (ProtocolName (driver t)) p)
      = inl remoteMa ->
    listener t = Some l ->
    ctx_Err (listener_ctx l) = false ->
    exists t0,
      HandleFoundPeer_prepare t p = inl (remotePID, remoteMa, l, t0)
      /\ rbm_cache (cache t0) !! p = None
      /\ rbm_queue p (cache t0) = []
      /\ forall sel, cache (snd (HandleFoundPeer t p sel)) = cache t0).
  { clear t. intros t Hd Hm Hl Hc. eexists.
    split; [by apply HandleFoundPeer_prepare_running|].
    assert (Hnone : rbm_cache (rbm_Delete p (cache t)) !! p = None)
      by apply lookup_delete_eq.
    split; [exact Hnone|]. split.
    - unfold rbm_queue. cbn [cache set_cache]. by rewrite Hnone.
    - intros sel.
      rewrite (HandleFoundPeer_election_addr _ _ _ _ _ sel Hd Hm Hl Hc).
      destruct (String.ltb _ _); [reflexivity|]. by destruct sel. }
  intros Hd Hm Hl Hc. split; [by apply Hgen|].
  destruct (HandleLostPeer_keeps t p) as (Hdr & Hls & Hca & _).
  cbv zeta. split; [exact Hca|].
  apply Hgen; [done| by rewrite Hdr | by rewrite Hls | done].
Qed.

End Properties.

(** * The properties on the concrete process *)

Section Examples.

Import Example.

(** C2. A listener is installed and the multiaddress [/ble/zzz] decodes, to
    a string that is not the one of the requested peer id [zzy]: [Dial] takes
    the wrong-multiaddr return, where [errors.Wrap] of the nil decoding error
    is nil.  [Dial] returns a nil connection and a nil error. *)
Theorem Dial_mismatch_returns_nil_error :
  ma.ValueForProtocol (addr ble "zzz") (ProtocolCode (driver (listening "aaa")))
    = ("zzz", None)
  /\ "zzz" <> peer.ID_String zzy
  /\ notnil (listener (listening "aaa")) = true
  /\ Dial (listening "aaa") (addr ble "zzz") zzy = DialReturn None.
Proof. repeat split; done. Qed.

(** C4. The multiaddress [/ble/other] is not the default address
    [/ble/Qmeo1] and decodes to a string that is not the local peer id [mmm]:
    [Listen] takes the wrong-multiaddr return, where [errors.Wrap] of the nil
    decoding error is nil.  [Listen] returns a nil listener and a nil error. *)
Theorem Listen_mismatch_returns_nil_error :
  ma.String (addr ble "other") <> DefaultAddr (driver (fresh "mmm"))
  /\ ma.ValueForProtocol (addr ble "other") (ProtocolCode (driver (fresh "mmm")))
     = ("other", None)
  /\ "other" <> peer.ID_String (LocalPeer (swarm (fresh "mmm")))
  /\ @Listen libp2p ∅ 1 (fresh "mmm") (addr ble "other")
     = (ListenReturn None None, ∅, fresh "mmm").
Proof. repeat split; done. Qed.

(** The peer [zzz] listens and finds the peer [aaa]; the local id is not
    the smaller one.  Were the address of the listener the multiaddress
    [/ble/zzz], as the spec describes [addr()], [HandleFoundPeer] would
    compare [/ble/zzz] with [aaa]: it would start the dial and return true,
    and hand no request to the listener, whether the accept side is there or
    not.  (With the bare peer id for address the same peer accepts, see
    [HandleFoundPeer_election].) *)
Theorem HandleFoundPeer_dials_from_larger_peer :
  String.ltb "zzz" "aaa" = false
  /\ listener (listening "zzz") = Some listener_zzz
  /\ Listener_Addr_spec listener_zzz = "/ble/zzz"
  /\ String.ltb "/ble/zzz" "aaa" = true
  /\ fst (@HandleFoundPeer libp2p spec_package (listening "zzz") "aaa" CaseSend)
     = FoundOutgoing
         {| go_ctx := background;
            go_pi := {| peer.AddrInfo_ID := {| peer.ID_String := "aaa" |};
                        peer.Addrs := [addr ble "aaa"] |} |}
  /\ fst (@HandleFoundPeer libp2p spec_package (listening "zzz") "aaa" CaseDone)
     = fst (@HandleFoundPeer libp2p spec_package (listening "zzz") "aaa"
              CaseSend)
  /\ Found_returns
       (fst (@HandleFoundPeer libp2p spec_package (listening "zzz") "aaa"
               CaseSend)) = Some true
  /\ (inboundConnReq <$>
        listener
          (snd (@HandleFoundPeer libp2p spec_package (listening "zzz") "aaa"
                  CaseSend))) = Some [].
Proof. repeat split; vm_compute; reflexivity. Qed.

(** C7 fails as stated: the first transport listens, and a second [Listen]
    on it with a multiaddress of another protocol is answered by the
    wrong-multiaddr error, not by [ListenerExists]. *)
Lemma Listen_again_wrong_multiaddr :
  @World_Listen libp2p w0 0 (addr ble "Qmeo1")
    = (Some (ListenReturn (Some (newListener background (addr ble "aaa"))) None),
       w1)
  /\ @World_Listen libp2p w1 0 (addr tcp "80")
     = (Some (ListenReturn None
                (Some (withMessage ma.ErrProtocolNotFound
                         msg_Listen_wrong_multiaddr))),
        w1)
  /\ withMessage ma.ErrProtocolNotFound msg_Listen_wrong_multiaddr
     <> ErrListenerExists.
Proof. repeat split; [vm_compute; reflexivity .. | discriminate]. Qed.

(** C5 on a fresh transport whose driver is linked to the peer. *)
Lemma Dial_no_listener_witness :
  listener (fresh "aaa") = None
  /\ DialPeer (driver (fresh "aaa")) "zzz" = true
  /\ Dial (fresh "aaa") (addr ble "zzz") zzz = DialReturn (Some ErrNoListener).
Proof.
  split; [reflexivity|]. split; [reflexivity|].
  apply Dial_no_listener. reflexivity.
Defined.

(** C6 on a listening transport whose driver is not linked to [zzy]. *)
Lemma Dial_link_gate_witness :
  listener (listening "aaa") = Some (newListener background (addr ble "aaa"))
  /\ ma.ValueForProtocol (addr ble "zzy")
       (ProtocolCode (driver (listening "aaa"))) = ("zzy", None)
  /\ "zzy" = peer.ID_String zzy
  /\ DialPeer (driver (listening "aaa")) "zzy" = false
  /\ Dial (listening "aaa") (addr ble "zzy") zzy
     = DialReturn (Some ErrPeerNotLinked).
Proof.
  assert (H1 : listener (listening "aaa")
               = Some (newListener background (addr ble "aaa")))
    by reflexivity.
  assert (H2 : ma.ValueForProtocol (addr ble "zzy")
                 (ProtocolCode (driver (listening "aaa"))) = ("zzy", None))
    by reflexivity.
  assert (H3 : "zzy" = peer.ID_String zzy) by reflexivity.
  repeat (split; [reflexivity|]).
  apply (proj1 (Dial_link_gate _ _ _ _ _ H1 H2 H3)). reflexivity.
Defined.

(** C3 on the three routes: a connection that is not ready, a ready one,
    and no connection. *)
Lemma ReceiveFromPeer_routing_witness :
  slice_valid (heap w0) payload
  /\ fst (ReceiveFromPeer (heap w0) with_conn "zzz" payload)
     = heap w0 ++ [[x51; x52]]
  /\ (exists c',
        connMap (snd (ReceiveFromPeer (heap w0) with_conn "zzz" payload))
          !! "zzz" = Some c'
        /\ mp_input c' = []
        /\ rbm_queue "zzz" (conn_cache c') = [[x51; x52]])
  /\ (exists c',
        connMap (snd (ReceiveFromPeer (heap w0) with_ready_conn "zzz" payload))
          !! "zzz" = Some c'
        /\ mp_input c' = [{| ptr := 1; off := 0; len := 2 |}]
        /\ conn_cache c' = conn_cache established)
  /\ rbm_queue "zzz"
       (cache (snd (ReceiveFromPeer (heap w0) (listening "aaa") "zzz" payload)))
     = [[x51; x52]].
Proof.
  assert (Hv : slice_valid (heap w0) payload).
  { exists [x51; x52; x53]. split; [reflexivity | cbn; lia]. }
  split; [exact Hv|].
  destruct (ReceiveFromPeer_routing (heap w0) with_conn "zzz" payload Hv)
    as (Hh & _ & Hroute).
  split; [exact Hh|].
  change (connMap with_conn !! "zzz") with (Some opening) in Hroute.
  destruct Hroute as (_ & c1 & Hc1 & _ & Hin1 & Hq1).
  split; [by exists c1|].
  destruct (ReceiveFromPeer_routing (heap w0) with_ready_conn "zzz" payload Hv)
    as (_ & _ & Hroute).
  change (connMap with_ready_conn !! "zzz") with (Some established) in Hroute.
  destruct Hroute as (_ & c2 & Hc2 & _ & Hin2 & Hq2).
  split; [by exists c2|].
  destruct (ReceiveFromPeer_routing (heap w0) (listening "aaa") "zzz" payload Hv)
    as (_ & _ & Hroute).
  change (connMap (listening "aaa") !! "zzz") with (@None Conn) in Hroute.
  exact (proj2 Hroute).
Defined.

(** C9 on a fresh transport. *)
Lemma Listen_default_addr_witness :
  ma.String (addr ble "Qmeo1") = DefaultAddr (driver (fresh "aaa"))
  /\ @Listen libp2p ∅ 0 (fresh "aaa") (addr ble "Qmeo1")
     = (ListenReturn (Some (newListener background (addr ble "aaa"))) None,
        <["ble" := 0]> ∅, listening "aaa")
  /\ ma.String (localMa (newListener background (addr ble "aaa")))
     = "/ble/aaa".
Proof.
  assert (H1 : ma.String (addr ble "Qmeo1") = DefaultAddr (driver (fresh "aaa")))
    by reflexivity.
  assert (H2 : @Listen libp2p ∅ 0 (fresh "aaa") (addr ble "Qmeo1")
     = (ListenReturn (Some (newListener background (addr ble "aaa"))) None,
        <["ble" := 0]> ∅, listening "aaa"))
    by (vm_compute; reflexivity).
  split; [exact H1|]. split; [exact H2|].
  apply (proj2 (proj2 (@Listen_default_addr libp2p _ _ _ _ _ _ _ _ H1 H2)));
    [discriminate | reflexivity].
Defined.

(** C7, as the code has it, on the process with two transports: after the
    first one listened and two further calls, [Listen] on the second one. *)
Lemma Listen_singleton_witness :
  let calls :=
    [CallHandleFoundPeer 0 "zzz" CaseSend; CallListen 1 (addr ble "mmm")] in
  @World_Listen libp2p w0 0 (addr ble "Qmeo1")
    = (Some (ListenReturn (Some (newListener background (addr ble "aaa"))) None),
       w1)
  /\ transports w1 !! 0 = Some (listening "aaa")
  /\ transports (@run libp2p package calls w1) !! 1 = Some (fresh "mmm")
  /\ ProtocolName (driver (fresh "mmm"))
     = ProtocolName (driver (listening "aaa"))
  /\ @Listen_accepts libp2p (fresh "mmm") (addr ble "mmm") = true
  /\ @World_Listen libp2p (@run libp2p package calls w1) 1 (addr ble "mmm")
     = (Some (ListenReturn None (Some ErrListenerExists)),
        @run libp2p package calls w1).
Proof.
  intros calls.
  assert (H1 : @World_Listen libp2p w0 0 (addr ble "Qmeo1")
    = (Some (ListenReturn (Some (newListener background (addr ble "aaa"))) None),
       w1)) by (vm_compute; reflexivity).
  assert (H2 : transports w1 !! 0 = Some (listening "aaa"))
    by (vm_compute; reflexivity).
  assert (H3 : transports (@run libp2p package calls w1) !! 1
               = Some (fresh "mmm")) by (vm_compute; reflexivity).
  assert (H4 : ProtocolName (driver (fresh "mmm"))
               = ProtocolName (driver (listening "aaa"))) by reflexivity.
  assert (H5 : @Listen_accepts libp2p (fresh "mmm") (addr ble "mmm") = true)
    by reflexivity.
  repeat (split; [assumption|]).
  exact (proj2 (@Listen_singleton libp2p package _ _ _ _ _ (addr ble "mmm")
                  _ _ calls _ _ H1 H2 H3 (or_intror H4)) H5).
Defined.

(** The election on both sides of a pair, the listener reporting the bare
    peer id: the peer [aaa] finds [zzz] and dials, the peer [zzz] finds
    [aaa] and accepts. *)
Lemma HandleFoundPeer_election_witness :
  fst (@HandleFoundPeer libp2p package (listening "aaa") "zzz" CaseSend)
    = FoundOutgoing
        {| go_ctx := background;
           go_pi := {| peer.AddrInfo_ID := zzz;
                       peer.Addrs := [addr ble "zzz"] |} |}
  /\ fst (@HandleFoundPeer libp2p package (listening "zzz") "aaa" CaseSend)
     = FoundIncoming
         {| req_remoteMa := addr ble "aaa";
            req_remotePID := {| peer.ID_String := "aaa" |} |}.
Proof.
  split.
  - refine (proj1 (proj1 (proj2
      (@HandleFoundPeer_election libp2p package (listening "aaa") "zzz" zzz
         (addr ble "zzz") (newListener background (addr ble "aaa")) CaseSend
         _ _ _ _ _)) _)); reflexivity.
  - refine (proj1 (proj2 (proj2
      (@HandleFoundPeer_election libp2p package (listening "zzz") "aaa"
         {| peer.ID_String := "aaa" |}
         (addr ble "aaa") (newListener background (addr ble "zzz")) CaseSend
         _ _ _ _ _)) _)); reflexivity.
Defined.

(** C8 on a transport that cached a payload of [zzz] before. *)
Lemma HandleFoundPeer_flushes_cache_witness :
  rbm_queue "zzz" (cache cached) = [[x51; x52]]
  /\ exists t0,
      @HandleFoundPeer_prepare libp2p cached "zzz"
        = inl (zzz, addr ble "zzz", newListener background (addr ble "aaa"), t0)
      /\ rbm_queue "zzz" (cache t0) = [].
Proof.
  split; [vm_compute; reflexivity|].
  destruct (@HandleFoundPeer_flushes_cache libp2p package cached "zzz" zzz
              (addr ble "zzz") (newListener background (addr ble "aaa")))
    as [(t0 & Hp & _ & Hq & _) _]; try reflexivity.
  exists t0. split; [exact Hp | exact Hq].
Defined.

End Examples.

(** * Further properties of [transport.go] *)

Section MoreProperties.

Context `{!Libp2p} `{!Package} `{!Overlay}.

(** ** Dial and CanDial *)

(** [Dial] hands over to [newConn] exactly when its four gates pass: a
    listener is installed, the multiaddress decodes under the driver's
    protocol code to the string of the requested peer id, the driver is
    linked to that address, and the connection map has no entry for it.  It
    then asks for an outbound connection to the multiaddress and peer id it
    was given. *)
Theorem Dial_reaches_newConn_iff (t : proximityTransport)
    (remoteMa : ma.Multiaddr) (remotePID : peer.ID) :
  let r := ma.ValueForProtocol remoteMa (ProtocolCode (driver t)) in
  ((exists m p d, Dial t remoteMa remotePID = DialNewConn m p d)
   <-> is_Some (listener t)
       /\ snd r = None
       /\ fst r = peer.ID_String remotePID
       /\ DialPeer (driver t) (fst r) = true
       /\ connMap t !! fst r = None)
  /\ (forall m p d, Dial t remoteMa remotePID = DialNewConn m p d ->
        m = remoteMa /\ p = remotePID /\ d = network.DirOutbound).
Proof.
  intros r. destruct (listener t) as [l|] eqn:Hl.
  - rewrite (Dial_unfold _ _ _ _ Hl). fold r. cbv zeta.
    destruct r as [v [e|]]; cbn [fst snd notnil orb].
    { split; [|done]. split; [by intros (? & ? & ? & ?)|].
      by intros (_ & ? & _). }
    destruct (String.eqb_spec v (peer.ID_String remotePID)) as [Hv|Hv];
      cbn [negb].
    2:{ split; [|done]. split; [by intros (? & ? & ? & ?)|].
        by intros (_ & _ & ? & _). }
    destruct (DialPeer (driver t) v) eqn:Hd; cbn [negb].
    2:{ split; [|done]. split; [by intros (? & ? & ? & ?)|].
        by intros (_ & _ & _ & ? & _). }
    destruct (connMap t !! v) as [c|] eqn:Hc; cbn [notnil].
    { split; [|done]. split; [by intros (? & ? & ? & ?)|].
      by intros (_ & _ & _ & _ & ?). }
    split.
    + split; [|by eauto]. intros _. by repeat split.
    + by intros m p d [= <- <- <-].
  - unfold Dial. rewrite Hl. cbn. split; [|done].
    split; [by intros (? & ? & ? & ?)|]. by intros ([? ?] & _).
Qed.

(** With the other gates passed (a listener, a multiaddress decoding to the
    peer id, a linked driver), [Dial] fails with [AlreadyConnected] iff the
    connection map has an entry for the address. *)
Theorem Dial_already_connected_iff (t : proximityTransport)
    (remoteMa : ma.Multiaddr) (remotePID : peer.ID) (l : Listener)
    (remoteAddr : string) :
  listener t = Some l ->
  ma.ValueForProtocol remoteMa (ProtocolCode (driver t)) = (remoteAddr, None) ->
  remoteAddr = peer.ID_String remotePID ->
  DialPeer (driver t) remoteAddr = true ->
  (Dial t remoteMa remotePID = DialReturn (Some ErrAlreadyConnected)
   <-> is_Some (connMap t !! remoteAddr)).
Proof.
  intros Hl Hv Heq Hd. rewrite (Dial_unfold _ _ _ _ Hl), Hv. cbn.
  rewrite <- Heq, String.eqb_refl, Hd. cbn.
  destruct (connMap t !! remoteAddr); cbn; split; done.
Qed.

Lemma CanDial_cases (t : proximityTransport) (remoteMa : ma.Multiaddr) :
  (CanDial t remoteMa = None <-> remoteMa = [])
  /\ (CanDial t remoteMa = Some true
      <-> exists c, remoteMa = [c]
                    /\ ma.Code (ma.proto c) = ProtocolCode (driver t)).
Proof.
  unfold CanDial, mafmt.Base_Matches, mafmt.Protocols.
  destruct remoteMa as [|c rest]; cbn.
  - split; [done|]. split; [done|]. by intros (c & ? & _).
  - split; [done|].
    destruct (Z.eqb_spec (ma.Code (ma.proto c)) (ProtocolCode (driver t)))
      as [Hc|Hc]; cbn.
    + destruct rest as [|c' rest]; cbn.
      * split; [|done]. intros _. by exists c.
      * split; [done|]. by intros (c0 & ? & _).
    + split; [done|]. intros (c0 & [= <- _] & ?). done.
Qed.

(** A multiaddress [CanDial] accepts is one component of the driver's
    protocol, and it always passes the decoding of [Dial]: with a listener
    installed, [Dial] with it is decided by whether the value of the
    component is the string of the requested peer id (if it is not, [Dial]
    returns nil and a nil error), then by the driver's link, then by the
    connection map. *)
Theorem CanDial_accepted_by_Dial (t : proximityTransport)
    (remoteMa : ma.Multiaddr) (l : Listener) :
  CanDial t remoteMa = Some true ->
  listener t = Some l ->
  exists c,
    remoteMa = [c]
    /\ ma.Code (ma.proto c) = ProtocolCode (driver t)
    /\ forall remotePID,
        Dial t remoteMa remotePID =
          if String.eqb (ma.value c) (peer.ID_String remotePID) then
            if DialPeer (driver t) (ma.value c) then
              if notnil (connMap t !! ma.value c)
              then DialReturn (Some ErrAlreadyConnected)
              else DialNewConn remoteMa remotePID network.DirOutbound
            else DialReturn (Some ErrPeerNotLinked)
          else DialReturn None.
Proof.
  intros (c & -> & Hc)%CanDial_cases Hl. exists c.
  split; [reflexivity|]. split; [exact Hc|]. intros remotePID.
  rewrite (Dial_unfold _ _ _ _ Hl). cbn. rewrite Hc, Z.eqb_refl. cbn.
  destruct (String.eqb (ma.value c) (peer.ID_String remotePID)); cbn;
    [|reflexivity].
  by destruct (DialPeer (driver t) (ma.value c)).
Qed.

(** ** Listen *)

(** [Listen] returns a listener exactly when the multiaddress passes its
    checks, no transport is registered under the protocol name and the
    listener slot is empty. *)
Theorem Listen_returns_listener_iff (tm : gmap string nat) (self : nat)
    (t : proximityTransport) (localMa : ma.Multiaddr) :
  (exists l err tm' t',
      Listen tm self t localMa = (ListenReturn (Some l) err, tm', t'))
  <-> Listen_accepts t localMa = true
      /\ tm !! ProtocolName (driver t) = None
      /\ listener t = None.
Proof.
  rewrite Listen_unfold. unfold Listen_accepts. cbv zeta.
  destruct (ma.ValueForProtocol localMa _) as [localAddr [e|]];
    cbn [fst snd notnil orb negb andb].
  { split; [by intros (? & ? & ? & ? & ?)|]. by intros (? & _). }
  destruct (String.eqb (ma.String localMa) _); cbn [negb andb].
  - destruct (ma.NewMultiaddr _ _) as [m|e].
    + destruct (tm !! _) as [i|]; cbn [notnil orb].
      { split; [by intros (? & ? & ? & ? & ?)|]. by intros (_ & ? & _). }
      destruct (listener t) as [l|]; cbn [notnil].
      { split; [by intros (? & ? & ? & ? & ?)|]. by intros (_ & _ & ?). }
      split; [done|]. intros _. by repeat eexists.
    + split; [by intros (? & ? & ? & ? & ?)|]. by intros (? & _).
  - destruct (String.eqb localAddr _); cbn [negb].
    + destruct (tm !! _) as [i|]; cbn [notnil orb].
      { split; [by intros (? & ? & ? & ? & ?)|]. by intros (_ & ? & _). }
      destruct (listener t) as [l|]; cbn [notnil].
      { split; [by intros (? & ? & ? & ? & ?)|]. by intros (_ & _ & ?). }
      split; [done|]. intros _. by repeat eexists.
    + split; [by intros (? & ? & ? & ? & ?)|]. by intros (? & _).
Qed.

(** Whenever [Listen] returns no listener (an error, a nil error or a
    panic), it has written nothing: the registry and the transport are as
    before. *)
Theorem Listen_failure_writes_nothing (tm tm' : gmap string nat) (self : nat)
    (t t' : proximityTransport) (localMa : ma.Multiaddr) (r : ListenResult) :
  Listen tm self t localMa = (r, tm', t') ->
  (forall l err, r <> ListenReturn (Some l) err) ->
  tm' = tm /\ t' = t.
Proof.
  rewrite Listen_unfold. cbv zeta. intros Hl Hr.
  destruct (_ || _); [by injection Hl as _ <- <-|].
  destruct (if String.eqb _ _ then _ else _) as [m|e];
    [|by injection Hl as _ <- <-].
  destruct (_ || _); [by injection Hl as _ <- <-|].
  injection Hl as <- _ _. by destruct (Hr _ _ eq_refl).
Qed.

(** A successful [Listen] registers the transport under its protocol name
    and installs the listener it returns; the other registrations and the
    rest of the transport are as before. *)
Theorem Listen_success_frame (tm tm' : gmap string nat) (self : nat)
    (t t' : proximityTransport) (localMa : ma.Multiaddr) (l : Listener)
    (err : option error) :
  Listen tm self t localMa = (ListenReturn (Some l) err, tm', t') ->
  tm' !! ProtocolName (driver t) = Some self
  /\ (forall name, name <> ProtocolName (driver t) -> tm' !! name = tm !! name)
  /\ listener t' = Some l
  /\ swarm t' = swarm t /\ connMap t' = connMap t /\ cache t' = cache t
  /\ driver t' = driver t /\ ctx t' = ctx t /\ logger t' = logger t
  /\ upgrader t' = upgrader t.
Proof.
  intros (_ & _ & _ & -> & -> & m & -> & _)%Listen_success.
  split; [apply lookup_insert_eq|].
  split; [by intros name Hn; rewrite lookup_insert_ne|].
  by repeat split.
Qed.

(** When the multiaddress is not the default address, the listener of a
    successful [Listen] keeps the multiaddress as it was given, and this
    multiaddress decodes to the string of the local peer id. *)
Theorem Listen_own_address (tm tm' : gmap string nat) (self : nat)
    (t t' : proximityTransport) (ownMa : ma.Multiaddr) (l : Listener)
    (err : option error) :
  ma.String ownMa <> DefaultAddr (driver t) ->
  Listen tm self t ownMa = (ListenReturn (Some l) err, tm', t') ->
  localMa l = ownMa
  /\ ma.ValueForProtocol ownMa (ProtocolCode (driver t))
     = (peer.ID_String (LocalPeer (swarm t)), None).
Proof.
  intros Hd Hl. pose proof Hl as Hs.
  apply Listen_success in Hs as (_ & _ & _ & _ & _ & m & -> & Hm).
  apply String.eqb_neq in Hd. rewrite Hd in Hm. subst m.
  split; [reflexivity|].
  rewrite Listen_unfold in Hl. cbv zeta in Hl. rewrite Hd in Hl.
  destruct (ma.ValueForProtocol ownMa _) as [localAddr [e|]];
    cbn [fst snd notnil orb negb andb] in Hl; [discriminate|].
  destruct (String.eqb_spec localAddr (peer.ID_String (LocalPeer (swarm t))))
    as [Heq|]; [by rewrite Heq | discriminate].
Qed.

(** Before [Listen] a dial fails with [NoListener]; after a successful
    [Listen] the same dial, to a linked peer with no connection yet and with
    a multiaddress that decodes to its id, goes through to [newConn]. *)
Theorem Listen_then_Dial (tm tm' : gmap string nat) (self : nat)
    (t t' : proximityTransport) (localMa remoteMa : ma.Multiaddr)
    (l : Listener) (err : option error) (remotePID : peer.ID) :
  Listen tm self t localMa = (ListenReturn (Some l) err, tm', t') ->
  ma.ValueForProtocol remoteMa (ProtocolCode (driver t))
    = (peer.ID_String remotePID, None) ->
  DialPeer (driver t) (peer.ID_String remotePID) = true ->
  connMap t !! peer.ID_String remotePID = None ->
  Dial t remoteMa remotePID = DialReturn (Some ErrNoListener)
  /\ Dial t' remoteMa remotePID
     = DialNewConn remoteMa remotePID network.DirOutbound.
Proof.
  intros (_ & _ & Hnone & _ & -> & _)%Listen_success Hv Hd Hc. split.
  - unfold Dial. by rewrite Hnone.
  - rewrite (Dial_unfold _ _ _ l) by reflexivity. cbn.
    rewrite Hv. cbn. by rewrite String.eqb_refl, Hd, Hc.
Qed.

(** ** HandleFoundPeer and Dial *)

(** The multiaddress [HandleFoundPeer] writes to the peerstore for a peer it
    found is one [CanDial] accepts, and [Dial] with it and the decoded peer
    id finds the listener.  When the text the driver gave is the string form
    of the decoded id, the driver's link and the connection map decide; when
    it is another text for the same id, [Dial] returns nil and a nil error.
    The protocol name is registered with the driver's protocol code. *)
Theorem found_address_dialable (t t0 : proximityTransport) (p : string)
    (remotePID : peer.ID) (remoteMa : ma.Multiaddr) (l : Listener) :
  HandleFoundPeer_prepare t p = inl (remotePID, remoteMa, l, t0) ->
  ma.slash_free (ProtocolName (driver t)) = true ->
  ma.slash_free p = true ->
  p <> "" ->
  ma.Code (ma.ProtocolWithName protocols (ProtocolName (driver t)))
    = ProtocolCode (driver t) ->
  ProtocolCode (driver t) <> 0%Z ->
  CanDial t0 remoteMa = Some true
  /\ Dial t0 remoteMa remotePID =
       if String.eqb p (peer.ID_String remotePID) then
         if DialPeer (driver t) p then
           if notnil (connMap t !! p)
           then DialReturn (Some ErrAlreadyConnected)
           else DialNewConn remoteMa remotePID network.DirOutbound
         else DialReturn (Some ErrPeerNotLinked)
       else DialReturn None.
Proof.
  intros Hp Hn Hs Hne Hcode Hnz.
  pose proof (HandleFoundPeer_prepare_keeps _ _ _ _ _ _ Hp)
    as (Hd & Hl & Hsome & Hc).
  assert (Hm : remoteMa =
    [{| ma.proto := ma.ProtocolWithName protocols (ProtocolName (driver t));
        ma.value := p |}]).
  { unfold HandleFoundPeer_prepare in Hp.
    destruct (peer_Decode p); [|done].
    rewrite NewMultiaddr_Sprintf in Hp by (done || by rewrite Hcode).
    destruct (listener t); [|done]. destruct (ctx_Err _); [done|].
    by injection Hp as _ <- _ _. }
  split.
  - unfold CanDial, mafmt.Base_Matches. rewrite Hd, Hm. cbn.
    by rewrite Hcode, Z.eqb_refl.
  - rewrite (Dial_unfold _ _ _ l) by (by rewrite Hl). rewrite Hd, Hc, Hm.
    cbn. rewrite Hcode, Z.eqb_refl. cbn.
    destruct (String.eqb p (peer.ID_String remotePID)); cbn; [|reflexivity].
    by destruct (DialPeer (driver t) p).
Qed.

(** ** HandleFoundPeer *)

(** Once the peer id decodes and a listener runs, what [HandleFoundPeer]
    does is decided by the comparison of line 255 alone.  It takes the dial
    branch iff [listener.Addr().String()] is smaller than the remote peer-id
    string: it then starts the goroutine for the decoded peer with the one
    multiaddress built for it, returns true and hands nothing to the
    listener.  Otherwise it takes the accept branch: the [connReq] of the
    remote multiaddress and peer id becomes the last request of the
    listener's channel and it returns true, or, the listener's context done
    first, nothing is handed over and it returns false. *)
Theorem HandleFoundPeer_election_by_address (t : proximityTransport)
    (p : string) (remotePID : peer.ID) (remoteMa : ma.Multiaddr)
    (l : Listener) (sel : SelectCase) :
  peer_Decode p = inl remotePID ->
  ma.NewMultiaddr protocols (Sprintf_slash2 (ProtocolName (driver t)) p)
    = inl remoteMa ->
  listener t = Some l ->
  ctx_Err (listener_ctx l) = false ->
  let smaller := String.ltb (Listener_Addr_String l) p in
  let res := fst (HandleFoundPeer t p sel) in
  let t' := snd (HandleFoundPeer t p sel) in
  let r := {| req_remoteMa := remoteMa; req_remotePID := remotePID |} in
  ((exists g, res = FoundOutgoing g) <-> smaller = true)
  /\ (smaller = true ->
      res = FoundOutgoing
              {| go_ctx := listener_ctx l;
                 go_pi := {| peer.AddrInfo_ID := remotePID;
                             peer.Addrs := [remoteMa] |} |}
      /\ Found_returns res = Some true
      /\ (inboundConnReq <$> listener t') = Some (inboundConnReq l))
  /\ (smaller = false ->
      match sel with
      | CaseSend =>
          res = FoundIncoming r
          /\ Found_returns res = Some true
          /\ (inboundConnReq <$> listener t')
             = Some (inboundConnReq l ++ [r])
      | CaseDone =>
          res = FoundIncomingDone r
          /\ Found_returns res = Some false
          /\ (inboundConnReq <$> listener t') = Some (inboundConnReq l)
      end).
Proof.
  intros Hd Hm Hl Hc smaller res t' r. subst res t'.
  rewrite (HandleFoundPeer_election_addr _ _ _ _ _ sel Hd Hm Hl Hc).
  fold smaller r.
  destruct smaller.
  - cbn. rewrite Hl. repeat split; try done. by eauto.
  - split; [|split; [done|]].
    + split; [|done]. intros [g Hg]. destruct sel; discriminate.
    + intros _. destruct sel; cbn; rewrite ?Hl; by repeat split.
Qed.

(** When the peer id does not decode, or no listener is running (none
    installed, or its context cancelled), [HandleFoundPeer] does not return
    true and leaves the transport as it is: nothing is written to the
    peerstore and the cache of the peer is kept. *)
Theorem HandleFoundPeer_rejects (t : proximityTransport) (p : string)
    (sel : SelectCase) :
  (exists e, peer_Decode p = inr e)
  \/ (forall l, listener t = Some l -> ctx_Err (listener_ctx l) = true) ->
  snd (HandleFoundPeer t p sel) = t
  /\ Found_returns (fst (HandleFoundPeer t p sel)) <> Some true.
Proof.
  intros Hrej. unfold HandleFoundPeer, HandleFoundPeer_prepare.
  destruct (peer_Decode p) as [remotePID|e] eqn:Hd; [|done].
  destruct Hrej as [[e He]|Hl]; [done|].
  destruct (ma.NewMultiaddr _ _); [|done].
  destruct (listener t) as [l0|]; [|done].
  by rewrite (Hl l0 eq_refl).
Qed.

(** For a peer id that decodes and a well-formed multiaddress,
    [HandleFoundPeer] returns true exactly when a listener is running and
    either the listener's address is smaller than the remote id (the dial is
    started) or the accept side took the request. *)
Theorem HandleFoundPeer_returns_true_iff (t : proximityTransport) (p : string)
    (sel : SelectCase) (remotePID : peer.ID) (remoteMa : ma.Multiaddr) :
  peer_Decode p = inl remotePID ->
  ma.NewMultiaddr protocols (Sprintf_slash2 (ProtocolName (driver t)) p)
    = inl remoteMa ->
  (Found_returns (fst (HandleFoundPeer t p sel)) = Some true
   <-> exists l, listener t = Some l
                 /\ ctx_Err (listener_ctx l) = false
                 /\ (String.ltb (Listener_Addr_String l) p = true
                     \/ sel = CaseSend)).
Proof.
  intros Hd Hm. destruct (listener t) as [l|] eqn:Hl.
  - destruct (ctx_Err (listener_ctx l)) eqn:Hc.
    + unfold HandleFoundPeer, HandleFoundPeer_prepare.
      rewrite Hd, Hm, Hl, Hc. cbn. split; [discriminate|].
      intros (l' & [= <-] & Hc' & _). congruence.
    + rewrite (HandleFoundPeer_election_addr _ _ _ _ _ sel Hd Hm Hl Hc).
      destruct (String.ltb (Listener_Addr_String l) p) eqn:Hlt; cbn.
      * split; [|done]. intros _. exists l.
        split; [done|]. split; [done|]. by left.
      * destruct sel; cbn.
        -- split; [|done]. intros _. exists l.
           split; [done|]. split; [done|]. by right.
        -- split; [discriminate|].
           intros (l' & [= <-] & _ & [?|?]); congruence.
  - unfold HandleFoundPeer, HandleFoundPeer_prepare.
    rewrite Hd, Hm, Hl. cbn. split; [discriminate|].
    intros (l' & ? & _). discriminate.
Qed.

(** By the time it returns (what the goroutine it may have started does
    later is apart), [HandleFoundPeer] has left the connection map and the
    connections of the swarm alone, and has written to the peerstore exactly
    when it reached the election: one entry, the address of the peer it
    dials or hands to the listener, with the temporary TTL. *)
Theorem HandleFoundPeer_frame (t : proximityTransport) (p : string)
    (sel : SelectCase) :
  let res := fst (HandleFoundPeer t p sel) in
  let t' := snd (HandleFoundPeer t p sel) in
  connMap t' = connMap t
  /\ swarm_conns (swarm t') = swarm_conns (swarm t)
  /\ match res with
     | FoundWrongPeerID | FoundPanic _ | FoundListenerNotRunning =>
         Peerstore (swarm t') = Peerstore (swarm t)
     | FoundOutgoing g =>
         exists remoteMa,
           peer.Addrs (go_pi g) = [remoteMa]
           /\ Peerstore (swarm t')
              = Peerstore (swarm t)
                ++ [pstore.AddAddr (peer.AddrInfo_ID (go_pi g)) remoteMa
                      pstore.TempAddrTTL]
     | FoundIncoming r | FoundIncomingDone r =>
         Peerstore (swarm t')
         = Peerstore (swarm t)
           ++ [pstore.AddAddr (req_remotePID r) (req_remoteMa r)
                 pstore.TempAddrTTL]
     end.
Proof.
  cbv zeta. unfold HandleFoundPeer, HandleFoundPeer_prepare.
  destruct (peer_Decode p) as [remotePID|e]; [|done].
  destruct (ma.NewMultiaddr _ _) as [remoteMa|e]; [|done].
  destruct (listener t) as [l|]; [|done].
  destruct (ctx_Err _); [done|].
  destruct (String.ltb _ _); [|destruct sel]; cbn; repeat split.
  by exists remoteMa.
Qed.

(** ** HandleLostPeer *)

Lemma lookup_map {A B} (f : A -> B) (l : list A) (i : nat) :
  map f l !! i = f <$> l !! i.
Proof.
  revert i. induction l as [|x l IH]; intros [|i]; cbn; done.
Qed.

(** [HandleLostPeer], for a peer id that decodes and a well-formed
    multiaddress, marks the address to be dropped from the peerstore (TTL
    -1) and closes every connection of the swarm to that peer whose remote
    multiaddress is the proximity address of the peer.  The other
    connections, in the same places, are as before: no connection is added,
    removed or reopened. *)
Theorem HandleLostPeer_closes (t : proximityTransport) (p : string)
    (remotePID : peer.ID) (remoteMa : ma.Multiaddr) :
  peer_Decode p = inl remotePID ->
  ma.NewMultiaddr protocols (Sprintf_slash2 (ProtocolName (driver t)) p)
    = inl remoteMa ->
  let t' := snd (HandleLostPeer t p) in
  Peerstore (swarm t')
    = Peerstore (swarm t) ++ [pstore.SetAddr remotePID remoteMa (-1)]
  /\ length (swarm_conns (swarm t')) = length (swarm_conns (swarm t))
  /\ (forall i conn, swarm_conns (swarm t) !! i = Some conn ->
        swarm_conns (swarm t') !! i =
          Some (if bool_decide (network.RemotePeer conn = remotePID
                                /\ network.RemoteMultiaddr conn = remoteMa)
                then network.Close conn else conn))
  /\ (forall conn, conn ∈ swarm_conns (swarm t') ->
        network.RemotePeer conn = remotePID ->
        network.RemoteMultiaddr conn = remoteMa ->
        network.closed conn = true).
Proof.
  intros Hd Hm. cbv zeta. unfold HandleLostPeer. rewrite Hd, Hm. cbn.
  split; [reflexivity|]. split; [apply length_map|].
  assert (Hf : forall conn : network.Conn,
    (if bool_decide (network.RemotePeer conn = remotePID) then
       if ma.Equal (network.RemoteMultiaddr conn) remoteMa
       then network.Close conn else conn
     else conn)
    = (if bool_decide (network.RemotePeer conn = remotePID
                       /\ network.RemoteMultiaddr conn = remoteMa)
       then network.Close conn else conn)).
  { intros conn. unfold ma.Equal.
    destruct (decide (network.RemotePeer conn = remotePID)) as [Hp|Hp];
      destruct (decide (network.RemoteMultiaddr conn = remoteMa)) as [Ha|Ha];
      repeat case_bool_decide; tauto || done. }
  split.
  - intros i conn Hi. rewrite lookup_map, Hi. cbn. by rewrite Hf.
  - intros conn Hin Hp Ha. apply list_elem_of_In, in_map_iff in Hin
      as (conn0 & <- & _). rewrite Hf in Hp, Ha |- *.
    case_bool_decide as Hc; [reflexivity|].
    exfalso. apply Hc. done.
Qed.

(** A second [HandleLostPeer] for the same peer finds nothing left to
    close: the connections of the swarm are as after the first. *)
Theorem HandleLostPeer_idempotent (t : proximityTransport) (p : string) :
  swarm_conns (swarm (snd (HandleLostPeer (snd (HandleLostPeer t p)) p)))
  = swarm_conns (swarm (snd (HandleLostPeer t p))).
Proof.
  unfold HandleLostPeer.
  destruct (peer_Decode p) as [remotePID|e]; [|done].
  destruct (ma.NewMultiaddr protocols
              (Sprintf_slash2 (ProtocolName (driver t)) p))
    as [remoteMa|e] eqn:Hm; cbn; rewrite Hm; [|done]. cbn.
  rewrite map_map. apply map_ext. intros conn.
  destruct (bool_decide (network.RemotePeer conn = remotePID)) eqn:Hp;
    cbn; [|by rewrite Hp].
  destruct (ma.Equal (network.RemoteMultiaddr conn) remoteMa) eqn:Ha;
    cbn; rewrite Hp, Ha; done.
Qed.

(** ** ReceiveFromPeer *)

(** The slice [ReceiveFromPeer] sends on the input pipe of a ready
    connection does not share memory with the payload: it is in another
    buffer, and it reads as the payload did at the call whatever the driver
    writes into its own buffer afterwards. *)
Theorem ReceiveFromPeer_copy_isolated (h : Heap) (t : proximityTransport)
    (p : string) (payload : Slice) (c : Conn) (reused : list byte) :
  slice_valid h payload ->
  connMap t !! p = Some c ->
  ready c = true ->
  let h' := fst (ReceiveFromPeer h t p payload) in
  let t' := snd (ReceiveFromPeer h t p payload) in
  exists data c',
    connMap t' !! p = Some c'
    /\ mp_input c' = mp_input c ++ [data]
    /\ ptr data <> ptr payload
    /\ slice_bytes (<[ptr payload := reused]> h') data = slice_bytes h payload.
Proof.
  intros Hv Hc Hr. cbv zeta.
  rewrite (ReceiveFromPeer_unfold _ _ _ _ Hv). cbv zeta. rewrite Hc, Hr.
  cbn [fst snd]. eexists _, _. split; [apply lookup_insert_eq|].
  split; [reflexivity|].
  pose proof (slice_bytes_length _ _ Hv) as Hlen.
  destruct Hv as (buf & Hbuf & _). apply lookup_lt_Some in Hbuf.
  cbn [ptr]. split; [lia|].
  unfold slice_bytes at 1. cbn [ptr off len].
  rewrite list_lookup_insert_ne by lia.
  rewrite list_lookup_middle by reflexivity. cbn.
  apply take_ge. lia.
Qed.

(** [ReceiveFromPeer] never creates or removes a connection and touches
    only the one of the peer it is called for, whose [ready] flag it keeps;
    it leaves the listener, the driver and the swarm alone, and it uses the
    transport's cache only when the peer has no connection. *)
Theorem ReceiveFromPeer_frame (h : Heap) (t : proximityTransport) (p : string)
    (payload : Slice) :
  let t' := snd (ReceiveFromPeer h t p payload) in
  dom (connMap t') = dom (connMap t)
  /\ (forall q, q <> p -> connMap t' !! q = connMap t !! q)
  /\ (ready <$> connMap t' !! p) = (ready <$> connMap t !! p)
  /\ (is_Some (connMap t !! p) -> cache t' = cache t)
  /\ (connMap t !! p = None -> connMap t' = connMap t)
  /\ listener t' = listener t /\ driver t' = driver t /\ swarm t' = swarm t.
Proof.
  cbv zeta. unfold ReceiveFromPeer, isReady.
  destruct (make _ h) as [d h1]. destruct (copy d payload h1) as [n h2].
  destruct (connMap t !! p) as [c|] eqn:Hc.
  - assert (Hins : forall c', ready c' = ready c ->
      let t' := set_connMap (<[p := c']> (connMap t)) t in
      dom (connMap t') = dom (connMap t)
      /\ (forall q, q <> p -> connMap t' !! q = connMap t !! q)
      /\ (ready <$> connMap t' !! p) = (ready <$> Some c)
      /\ (is_Some (Some c) -> cache t' = cache t)
      /\ (Some c = None -> connMap t' = connMap t)
      /\ listener t' = listener t /\ driver t' = driver t
      /\ swarm t' = swarm t).
    { intros c' Hr. cbn. split; [by apply dom_insert_lookup_L; rewrite Hc|].
      split; [by intros q Hq; rewrite lookup_insert_ne|].
      rewrite lookup_insert_eq. cbn. by rewrite Hr. }
    destruct (ready c) eqn:Hr; cbv zeta; cbn [negb snd]; apply Hins; cbn; done.
  - cbn. repeat split; try done. by rewrite Hc.
Qed.


(** ** connect and the goroutine of HandleFoundPeer *)

(** [connect] first writes the addresses of the peer to the peerstore, with
    the temporary TTL.  Unless a direct dial is forced, it then returns nil
    without dialing when the swarm is connected to the peer, or has a
    limited connection and the context allows one; in every other case it
    dials and returns the error of [swarm.DialPeer] as it is. *)
Theorem connect_dials_iff (t : proximityTransport) (c : Context)
    (pi : peer.AddrInfo) :
  let t1 :=
    set_swarm
      (Peerstore_call
         (pstore.AddAddrs (peer.AddrInfo_ID pi) (peer.Addrs pi)
            pstore.TempAddrTTL) (swarm t)) t in
  let connectedness := swarm_Connectedness (swarm t1) (peer.AddrInfo_ID pi) in
  let already :=
    GetForceDirectDial c = false
    /\ (connectedness = Connected
        \/ (GetAllowLimitedConn c = true /\ connectedness = Limited)) in
  (already -> connect t c pi = (ConnectAlready, t1))
  /\ (~ already ->
      connect t c pi =
        (ConnectDialed (fst (swarm_DialPeer t1 c (peer.AddrInfo_ID pi))),
         snd (swarm_DialPeer t1 c (peer.AddrInfo_ID pi))))
  /\ (fst (connect t c pi) = ConnectAlready <-> already).
Proof.
  cbv zeta. unfold connect.
  set (t1 := set_swarm _ t).
  set (cn := swarm_Connectedness (swarm t1) (peer.AddrInfo_ID pi)).
  destruct (swarm_DialPeer t1 c (peer.AddrInfo_ID pi)) as [err t2].
  destruct (GetForceDirectDial c), (GetAllowLimitedConn c),
    (decide (cn = Connected)) as [Hc|Hc], (decide (cn = Limited)) as [Hl|Hl];
    cbn [negb];
    rewrite ?(bool_decide_true _ Hc), ?(bool_decide_false _ Hc),
      ?(bool_decide_true _ Hl), ?(bool_decide_false _ Hl);
    cbn; (split; [|split; [|split]]); try done; intuition congruence.
Qed.

(** The goroutine [HandleFoundPeer] starts asks the driver to drop the link
    to the peer exactly when [connect] returned an error, and then the last
    write to the peerstore marks the address of the peer to be dropped (TTL
    -1).  When the swarm is already connected to the peer and no direct dial
    is forced, nothing happens but the write of the address: the link is
    kept. *)
Theorem HandleFoundPeer_go_teardown (t : proximityTransport) (l : Listener)
    (remotePID : peer.ID) (remoteMa : ma.Multiaddr) (sRemotePID : string) :
  let pi := {| peer.AddrInfo_ID := remotePID; peer.Addrs := [remoteMa] |} in
  let r := fst (connect t (listener_ctx l) pi) in
  let t' := fst (HandleFoundPeer_go t l remotePID remoteMa sRemotePID) in
  let drops := snd (HandleFoundPeer_go t l remotePID remoteMa sRemotePID) in
  (is_Some (Connect_err r) ->
     drops = [sRemotePID]
     /\ last (Peerstore (swarm t'))
        = Some (pstore.SetAddr remotePID remoteMa (-1)))
  /\ (Connect_err r = None ->
      drops = [] /\ t' = snd (connect t (listener_ctx l) pi))
  /\ (GetForceDirectDial (listener_ctx l) = false ->
      swarm_Connectedness
        (Peerstore_call
           (pstore.AddAddrs remotePID [remoteMa] pstore.TempAddrTTL) (swarm t))
        remotePID = Connected ->
      drops = []
      /\ t' = set_swarm
                (Peerstore_call
                   (pstore.AddAddrs remotePID [remoteMa] pstore.TempAddrTTL)
                   (swarm t)) t).
Proof.
  cbv zeta. unfold HandleFoundPeer_go.
  split; [|split].
  - destruct (connect _ _ _) as [r t1]. cbn [fst].
    intros [e He]. rewrite He. cbn. split; [reflexivity|]. apply last_snoc.
  - destruct (connect _ _ _) as [r t1]. cbn [fst snd]. by intros ->.
  - intros Hf Hc. unfold connect. cbn [peer.AddrInfo_ID peer.Addrs].
    rewrite Hf. cbn [negb swarm set_swarm]. rewrite Hc.
    rewrite bool_decide_true by done. cbn. done.
Qed.

(** ** The registry of the process *)

Lemma Listen_cases (tm : gmap string nat) (self : nat)
    (t : proximityTransport) (localMa : ma.Multiaddr) :
  (exists l,
      Listen tm self t localMa
        = (ListenReturn (Some l) None,
           <[ProtocolName (driver t) := self]> tm, set_listener (Some l) t)
      /\ tm !! ProtocolName (driver t) = None /\ listener t = None)
  \/ (exists r, Listen tm self t localMa = (r, tm, t)).
Proof.
  rewrite Listen_unfold. cbv zeta.
  destruct (_ || _); [by eauto|].
  destruct (if String.eqb _ _ then _ else _) as [m|e]; [|by eauto].
  destruct (notnil (tm !! _)) eqn:Htm; cbn [orb]; [by eauto|].
  destruct (notnil (listener t)) eqn:Hl; [by eauto|].
  apply notnil_false in Htm, Hl. left. by eauto.
Qed.

(** Replacing a transport by one with the same driver that listens iff the
    old one did keeps the registry in line with the listeners. *)
Lemma replace_keeps_registry (w : World) (self : nat)
    (ts t' : proximityTransport) (h : Heap) :
  transports w !! self = Some ts ->
  driver t' = driver ts ->
  (is_Some (listener t') <-> is_Some (listener ts)) ->
  registry_consistent w /\ registry_sound w ->
  let w' := {| TransportMap := TransportMap w;
               transports := <[self := t']> (transports w);
               heap := h |} in
  registry_consistent w' /\ registry_sound w'.
Proof.
  intros Hs Hd Hl [Hc Hso]. cbv zeta. split.
  - intros i t Hi Hlt. cbn in Hi |- *.
    destruct (decide (self = i)) as [<-|Hne].
    + rewrite lookup_insert_eq in Hi. injection Hi as <-.
      rewrite Hd. apply Hc; [done|]. by apply Hl.
    + rewrite lookup_insert_ne in Hi by done. by apply Hc.
  - intros name i Hn. cbn in Hn |- *.
    destruct (Hso name i Hn) as (t & Hi & Hname & Hlt).
    destruct (decide (self = i)) as [<-|Hne].
    + rewrite lookup_insert_eq. exists t'. split; [done|].
      rewrite Hs in Hi. injection Hi as <-.
      split; [by rewrite Hd | by apply Hl].
    + rewrite lookup_insert_ne by done. by exists t.
Qed.

Lemma update_keeps_registry (w : World) (self : nat)
    (f : proximityTransport -> proximityTransport) :
  (forall t, driver (f t) = driver t
             /\ (is_Some (listener (f t)) <-> is_Some (listener t))) ->
  registry_consistent w /\ registry_sound w ->
  registry_consistent (update_transport w self f)
  /\ registry_sound (update_transport w self f).
Proof.
  intros Hf Hw. unfold update_transport.
  destruct (transports w !! self) as [ts|] eqn:Hs; [|done].
  destruct (Hf ts) as [Hd Hl].
  by apply (replace_keeps_registry w self ts (f ts) (heap w)).
Qed.

Lemma HandleFoundPeer_listener_iff (t : proximityTransport) (p : string)
    (sel : SelectCase) :
  is_Some (listener (snd (HandleFoundPeer t p sel))) <-> is_Some (listener t).
Proof.
  unfold HandleFoundPeer.
  destruct (HandleFoundPeer_prepare t p) as [[[[remotePID remoteMa] l] t0]|r]
    eqn:Hp; [|done].
  apply HandleFoundPeer_prepare_keeps in Hp as (_ & Hl & Hsome & _).
  destruct (String.ltb _ _); cbn; [by rewrite Hl|].
  destruct sel; cbn; rewrite Hl, ?Hsome; done.
Qed.

Lemma step_keeps_registry (w : World) (c : Call) :
  registry_consistent w /\ registry_sound w ->
  registry_consistent (step w c) /\ registry_sound (step w c).
Proof.
  intros Hw.
  destruct c as [self remoteMa remotePID | self localMa
                | self remotePID payload | self p sel | self p]; cbn [step].
  - apply update_keeps_registry; [|done]. intros t.
    destruct (Dial_state_keeps t remoteMa remotePID) as (Hd & Hl).
    by rewrite Hd, Hl.
  - unfold World_Listen.
    destruct (transports w !! self) as [ts|] eqn:Hs; [|done].
    destruct (Listen_cases (TransportMap w) self ts localMa)
      as [(l & -> & Htm & Hl)|(r & ->)]; cbn [snd].
    + destruct Hw as [Hc Hso]. split.
      * intros i t Hi Hlt. cbn in Hi |- *.
        destruct (decide (self = i)) as [<-|Hne].
        -- rewrite lookup_insert_eq in Hi. injection Hi as <-. cbn.
           apply lookup_insert_eq.
        -- rewrite lookup_insert_ne in Hi by done.
           pose proof (Hc i t Hi Hlt) as Hreg.
           rewrite lookup_insert_ne; [done|].
           intros Heq. rewrite <- Heq, Htm in Hreg. done.
      * intros name i Hn. cbn in Hn |- *.
        destruct (decide (ProtocolName (driver ts) = name)) as [<-|Hne].
        -- rewrite lookup_insert_eq in Hn. injection Hn as <-.
           rewrite lookup_insert_eq. eexists. split; [reflexivity|]. done.
        -- rewrite lookup_insert_ne in Hn by done.
           destruct (Hso name i Hn) as (t & Hi & Hname & Hlt).
           destruct (decide (self = i)) as [<-|Hnei].
           ++ rewrite Hs in Hi. injection Hi as <-.
              rewrite Hl in Hlt. by destruct Hlt.
           ++ rewrite lookup_insert_ne by done. by exists t.
    + by apply (replace_keeps_registry w self ts ts (heap w)).
  - destruct (transports w !! self) as [ts|] eqn:Hs; [|done].
    pose proof (ReceiveFromPeer_keeps (heap w) ts remotePID payload) as Hk.
    destruct (ReceiveFromPeer _ _ _ _) as [h' t']. destruct Hk as (Hd & Hl).
    cbn [snd] in Hd, Hl.
    apply (replace_keeps_registry w self ts t' h'); try done.
    by rewrite Hl.
  - apply update_keeps_registry; [|done]. intros t. split.
    + apply HandleFoundPeer_keeps.
    + apply HandleFoundPeer_listener_iff.
  - apply update_keeps_registry; [|done]. intros t.
    destruct (HandleLostPeer_keeps t p) as (Hd & Hl & _). by rewrite Hd, Hl.
Qed.

Lemma run_keeps_registry (calls : list Call) (w : World) :
  registry_consistent w /\ registry_sound w ->
  registry_consistent (run calls w) /\ registry_sound (run calls w).
Proof.
  revert w. induction calls as [|c calls IH]; intros w Hw; [done|].
  cbn. apply IH. by apply step_keeps_registry.
Qed.

Lemma initial_registry (w : World) :
  initial w -> registry_consistent w /\ registry_sound w.
Proof.
  intros [Htm Hno]. split.
  - intros i t Hi Hl. rewrite (Hno i t Hi) in Hl. by destruct Hl.
  - intros name i Hn. by rewrite Htm in Hn.
Qed.

(** From the start of the process and through any calls of [Dial],
    [Listen], [ReceiveFromPeer], [HandleFoundPeer] and [HandleLostPeer] made
    one after the other, none overlapping another, the registry and the
    listener slots agree: a transport with a listener is the one registered
    under its protocol name, and every registration names a transport of
    that protocol name that has a listener. *)
Theorem registry_agrees_with_listeners (w : World) (calls : list Call) :
  initial w ->
  registry_consistent (run calls w) /\ registry_sound (run calls w).
Proof.
  intros Hw. by apply run_keeps_registry, initial_registry.
Qed.

(** From the start of the process and through any such calls made one after
    the other, none overlapping another, two distinct transports of the same
    protocol name never both have a listener. *)
Theorem one_listener_per_protocol (w : World) (calls : list Call) (i j : nat)
    (ti tj : proximityTransport) :
  initial w ->
  transports (run calls w) !! i = Some ti ->
  transports (run calls w) !! j = Some tj ->
  ProtocolName (driver ti) = ProtocolName (driver tj) ->
  is_Some (listener ti) ->
  is_Some (listener tj) ->
  i = j.
Proof.
  intros Hw Hi Hj Hname Hli Hlj.
  destruct (run_keeps_registry calls w (initial_registry w Hw)) as [Hc _].
  pose proof (Hc i ti Hi Hli) as Hri. pose proof (Hc j tj Hj Hlj) as Hrj.
  rewrite Hname, Hrj in Hri. by injection Hri.
Qed.

(** ** Calls of Listen that overlap *)

(** [Listen] is its three parts run back to back. *)
Lemma Listen_in_steps (tm : gmap string nat) (self : nat)
    (t : proximityTransport) (localMa : ma.Multiaddr) :
  Listen tm self t localMa =
    match Listen_test tm t localMa with
    | TestEnds r => (r, tm, t)
    | TestPassed m err =>
        (fst (Listen_install t m err), Listen_register tm self t,
         snd (Listen_install t m err))
    end.
Proof.
  unfold Listen, Listen_test, Listen_install, Listen_register. cbv zeta.
  destruct (ma.ValueForProtocol localMa _) as [localAddr [e|]];
    [reflexivity|]. cbn [notnil orb].
  destruct (String.eqb (ma.String localMa) _); cbn [negb andb].
  - destruct (ma.NewMultiaddr _ _); [|reflexivity].
    by destruct (notnil (tm !! _) || notnil (listener t)).
  - destruct (negb _); [reflexivity|].
    by destruct (notnil (tm !! _) || notnil (listener t)).
Qed.

Lemma Listen_test_passes (tm : gmap string nat) (t : proximityTransport)
    (localMa : ma.Multiaddr) :
  Listen_accepts t localMa = true ->
  tm !! ProtocolName (driver t) = None ->
  listener t = None ->
  exists m, Listen_test tm t localMa = TestPassed m None.
Proof.
  unfold Listen_accepts, Listen_test. cbv zeta. intros Ha Htm Hl.
  rewrite Htm, Hl.
  destruct (ma.ValueForProtocol localMa _) as [localAddr [e|]];
    cbn [fst snd notnil orb negb andb] in Ha |- *; [done|].
  destruct (String.eqb (ma.String localMa) _); cbn [negb andb].
  - destruct (ma.NewMultiaddr _ _) as [m|e]; [|done]. by exists m.
  - rewrite Ha. cbn. by exists localMa.
Qed.

(** Two transports of one protocol name whose calls of [Listen] overlap,
    both running the test of lines 158 to 166 before either writes, both
    pass it; after the writes of both (lines 169 to 178) each has a
    listener, while the registry names only the one that wrote last.  Had
    the second call started after the first had written the registry, it
    would have returned the error of line 164. *)
Theorem Listen_overlapping_calls (tm : gmap string nat) (a b : nat)
    (ta tb : proximityTransport) (maA maB : ma.Multiaddr) :
  a <> b ->
  ProtocolName (driver ta) = ProtocolName (driver tb) ->
  tm !! ProtocolName (driver ta) = None ->
  listener ta = None ->
  listener tb = None ->
  Listen_accepts ta maA = true ->
  Listen_accepts tb maB = true ->
  exists mA mB,
    Listen_test tm ta maA = TestPassed mA None
    /\ Listen_test tm tb maB = TestPassed mB None
    /\ let tm1 := Listen_register tm a ta in
       let ta' := snd (Listen_install ta mA None) in
       let tm2 := Listen_register tm1 b tb in
       let tb' := snd (Listen_install tb mB None) in
       fst (Listen_install ta mA None)
         = ListenReturn (Some (newListener (ctx ta) mA)) None
       /\ fst (Listen_install tb mB None)
          = ListenReturn (Some (newListener (ctx tb) mB)) None
       /\ listener ta' = Some (newListener (ctx ta) mA)
       /\ listener tb' = Some (newListener (ctx tb) mB)
       /\ tm2 !! ProtocolName (driver ta') = Some b
       /\ tm2 !! ProtocolName (driver ta') <> Some a
       /\ tm2 !! ProtocolName (driver tb') = Some b
       /\ fst (fst (Listen tm1 b tb maB))
          = ListenReturn None (Some ErrListenerExists).
Proof.
  intros Hab Hname Htm Hla Hlb Ha Hb.
  destruct (Listen_test_passes tm ta maA Ha Htm Hla) as [mA HA].
  assert (Htmb : tm !! ProtocolName (driver tb) = None) by by rewrite <- Hname.
  destruct (Listen_test_passes tm tb maB Hb Htmb Hlb) as [mB HB].
  exists mA, mB. split; [exact HA|]. split; [exact HB|]. cbv zeta.
  unfold Listen_install, Listen_register. cbn [fst snd].
  repeat (split; [reflexivity|]).
  split; [|split; [|split]].
  - cbn. rewrite Hname. apply lookup_insert_eq.
  - cbn. rewrite Hname, lookup_insert_eq. intros [= Heq]. by apply Hab.
  - cbn. apply lookup_insert_eq.
  - rewrite Listen_in_steps.
    assert (Ht : Listen_test (<[ProtocolName (driver ta) := a]> tm) tb maB
                 = TestEnds (ListenReturn None (Some ErrListenerExists))).
    { revert HB. unfold Listen_test. cbv zeta.
      destruct (ma.ValueForProtocol maB _) as [localAddr err].
      destruct (_ || _); [done|].
      destruct (if String.eqb _ _ then _ else _) as [[m e]|e]; [|done].
      intros _. rewrite Hname, lookup_insert_eq. reflexivity. }
    by rewrite Ht.
Qed.

(** ** A transport as [NewTransport] makes it *)

(** A transport fresh from its constructor has no listener and no
    connection: every [Dial] fails with [NoListener], [HandleFoundPeer]
    never returns true and changes nothing, and a payload received from any
    peer goes to the transport's cache, the connection map staying empty. *)
Theorem fresh_transport (c : Context) (lg : option Logger)
    (d : option ProximityDriver) (s : Swarm) (u : Upgrader) :
  let t := fst (NewTransport c lg d s u) in
  (forall remoteMa remotePID,
      Dial t remoteMa remotePID = DialReturn (Some ErrNoListener))
  /\ (forall p sel,
        snd (HandleFoundPeer t p sel) = t
        /\ Found_returns (fst (HandleFoundPeer t p sel)) <> Some true)
  /\ (forall h p payload,
        connMap (snd (ReceiveFromPeer h t p payload)) = ∅
        /\ listener (snd (ReceiveFromPeer h t p payload)) = None).
Proof.
  cbv zeta. split; [done|]. split.
  - intros p sel. unfold HandleFoundPeer, HandleFoundPeer_prepare. cbn.
    destruct (peer_Decode p); [|done]. by destruct (ma.NewMultiaddr _ _).
  - intros h p payload. unfold ReceiveFromPeer.
    destruct (make _ h) as [dt h1]. destruct (copy dt payload h1) as [n h2].
    cbn. by rewrite lookup_empty.
Qed.

End MoreProperties.

(** * The further properties on the concrete process *)

Section MoreExamples.

Import Example.

Lemma Dial_already_connected_iff_witness :
  listener with_conn = Some listener_aaa
  /\ ma.ValueForProtocol (addr ble "zzz") (ProtocolCode (driver with_conn))
     = ("zzz", None)
  /\ DialPeer (driver with_conn) "zzz" = true
  /\ Dial with_conn (addr ble "zzz") zzz = DialReturn (Some ErrAlreadyConnected).
Proof.
  repeat (split; [reflexivity|]).
  apply (Dial_already_connected_iff with_conn (addr ble "zzz") zzz listener_aaa
           "zzz"); try reflexivity.
  by exists opening.
Defined.

Lemma CanDial_accepted_by_Dial_witness :
  CanDial (listening "aaa") (addr ble "zzz") = Some true
  /\ listener (listening "aaa") = Some listener_aaa
  /\ exists c,
      addr ble "zzz" = [c]
      /\ Dial (listening "aaa") (addr ble "zzz") zzz
         = DialNewConn (addr ble "zzz") zzz network.DirOutbound
      /\ Dial (listening "aaa") (addr ble "zzz") zzy = DialReturn None.
Proof.
  assert (H1 : CanDial (listening "aaa") (addr ble "zzz") = Some true)
    by reflexivity.
  assert (H2 : listener (listening "aaa") = Some listener_aaa) by reflexivity.
  split; [exact H1|]. split; [exact H2|].
  destruct (CanDial_accepted_by_Dial (listening "aaa") (addr ble "zzz")
              listener_aaa H1 H2) as (c & Hc & _ & Hd).
  exists c. split; [exact Hc|]. repeat split; reflexivity.
Defined.

Lemma Listen_failure_writes_nothing_witness :
  @Listen libp2p (TransportMap w1) 1 (fresh "mmm") (addr tcp "80")
    = (ListenReturn None
         (Some (withMessage ma.ErrProtocolNotFound msg_Listen_wrong_multiaddr)),
       TransportMap w1, fresh "mmm")
  /\ (TransportMap w1 = TransportMap w1 /\ fresh "mmm" = fresh "mmm").
Proof.
  assert (H1 : @Listen libp2p (TransportMap w1) 1 (fresh "mmm") (addr tcp "80")
    = (ListenReturn None
         (Some (withMessage ma.ErrProtocolNotFound msg_Listen_wrong_multiaddr)),
       TransportMap w1, fresh "mmm")) by (vm_compute; reflexivity).
  split; [exact H1|].
  apply (@Listen_failure_writes_nothing libp2p _ _ _ _ _ _ _ H1). done.
Defined.

Lemma Listen_success_frame_witness :
  @Listen libp2p ∅ 0 (fresh "aaa") (addr ble "Qmeo1")
    = (ListenReturn (Some listener_aaa) None, <["ble" := 0]> ∅, listening "aaa")
  /\ (<["ble" := 0]> ∅ : gmap string nat) !! "ble" = Some 0
  /\ cache (listening "aaa") = cache (fresh "aaa").
Proof.
  assert (H1 : @Listen libp2p ∅ 0 (fresh "aaa") (addr ble "Qmeo1")
    = (ListenReturn (Some listener_aaa) None, <["ble" := 0]> ∅,
       listening "aaa")) by (vm_compute; reflexivity).
  split; [exact H1|].
  destruct (@Listen_success_frame libp2p _ _ _ _ _ _ _ _ H1)
    as (Hreg & _ & _ & _ & _ & Hc & _).
  split; [exact Hreg | exact Hc].
Defined.

Lemma Listen_own_address_witness :
  ma.String (addr ble "aaa") <> DefaultAddr (driver (fresh "aaa"))
  /\ @Listen libp2p ∅ 0 (fresh "aaa") (addr ble "aaa")
     = (ListenReturn (Some listener_aaa) None, <["ble" := 0]> ∅,
        listening "aaa")
  /\ localMa listener_aaa = addr ble "aaa".
Proof.
  assert (H1 : ma.String (addr ble "aaa") <> DefaultAddr (driver (fresh "aaa")))
    by discriminate.
  assert (H2 : @Listen libp2p ∅ 0 (fresh "aaa") (addr ble "aaa")
    = (ListenReturn (Some listener_aaa) None, <["ble" := 0]> ∅,
       listening "aaa")) by (vm_compute; reflexivity).
  split; [exact H1|]. split; [exact H2|].
  exact (proj1 (@Listen_own_address libp2p _ _ _ _ _ _ _ _ H1 H2)).
Defined.

Lemma Listen_listener_decodes_witness :
  @Listen libp2p ∅ 0 (fresh "aaa") (addr ble "Qmeo1")
    = (ListenReturn (Some listener_aaa) None, <["ble" := 0]> ∅, listening "aaa")
  /\ ma.ValueForProtocol (localMa listener_aaa)
       (ProtocolCode (driver (fresh "aaa"))) = ("aaa", None).
Proof.
  assert (H1 : @Listen libp2p ∅ 0 (fresh "aaa") (addr ble "Qmeo1")
    = (ListenReturn (Some listener_aaa) None, <["ble" := 0]> ∅,
       listening "aaa")) by (vm_compute; reflexivity).
  split; [exact H1|].
  apply (@Listen_listener_decodes libp2p _ _ _ _ _ _ _ _ H1);
    (reflexivity || discriminate).
Defined.

Lemma Listen_then_Dial_witness :
  @Listen libp2p ∅ 0 (fresh "aaa") (addr ble "Qmeo1")
    = (ListenReturn (Some listener_aaa) None, <["ble" := 0]> ∅, listening "aaa")
  /\ DialPeer (driver (fresh "aaa")) (peer.ID_String zzz) = true
  /\ Dial (fresh "aaa") (addr ble "zzz") zzz = DialReturn (Some ErrNoListener)
  /\ Dial (listening "aaa") (addr ble "zzz") zzz
     = DialNewConn (addr ble "zzz") zzz network.DirOutbound.
Proof.
  assert (H1 : @Listen libp2p ∅ 0 (fresh "aaa") (addr ble "Qmeo1")
    = (ListenReturn (Some listener_aaa) None, <["ble" := 0]> ∅,
       listening "aaa")) by (vm_compute; reflexivity).
  split; [exact H1|]. split; [reflexivity|].
  apply (@Listen_then_Dial libp2p _ _ _ _ _ _ _ _ _ zzz H1); reflexivity.
Defined.

Lemma found_address_dialable_witness :
  let t0 :=
    set_cache (rbm_Delete "zzz" (cache (listening "aaa")))
      (set_swarm
         (Peerstore_call
            (pstore.AddAddr zzz (addr ble "zzz") pstore.TempAddrTTL)
            (swarm (listening "aaa"))) (listening "aaa")) in
  @HandleFoundPeer_prepare libp2p (listening "aaa") "zzz"
    = inl (zzz, addr ble "zzz", listener_aaa, t0)
  /\ CanDial t0 (addr ble "zzz") = Some true
  /\ Dial t0 (addr ble "zzz") zzz
     = DialNewConn (addr ble "zzz") zzz network.DirOutbound.
Proof.
  intros t0.
  assert (H1 : @HandleFoundPeer_prepare libp2p (listening "aaa") "zzz"
    = inl (zzz, addr ble "zzz", listener_aaa, t0)) by reflexivity.
  split; [exact H1|].
  apply (@found_address_dialable libp2p _ _ _ _ _ _ H1);
    (reflexivity || discriminate).
Defined.

Lemma Listen_overlapping_calls_witness :
  0 <> 1
  /\ ProtocolName (driver (fresh "aaa")) = ProtocolName (driver (fresh "mmm"))
  /\ (∅ : gmap string nat) !! ProtocolName (driver (fresh "aaa")) = None
  /\ @Listen_accepts libp2p (fresh "aaa") (addr ble "Qmeo1") = true
  /\ @Listen_accepts libp2p (fresh "mmm") (addr ble "mmm") = true
  /\ @Listen_test libp2p ∅ (fresh "aaa") (addr ble "Qmeo1")
     = TestPassed (addr ble "aaa") None
  /\ @Listen_test libp2p ∅ (fresh "mmm") (addr ble "mmm")
     = TestPassed (addr ble "mmm") None
  /\ listener (snd (Listen_install (fresh "aaa") (addr ble "aaa") None))
     = Some listener_aaa
  /\ listener (snd (Listen_install (fresh "mmm") (addr ble "mmm") None))
     = Some (newListener background (addr ble "mmm"))
  /\ Listen_register (Listen_register ∅ 0 (fresh "aaa")) 1 (fresh "mmm")
       !! "ble" = Some 1.
Proof.
  assert (H1 : 0 <> 1) by discriminate.
  assert (H2 : ProtocolName (driver (fresh "aaa"))
               = ProtocolName (driver (fresh "mmm"))) by reflexivity.
  assert (H3 : (∅ : gmap string nat) !! ProtocolName (driver (fresh "aaa"))
               = None) by reflexivity.
  assert (H4 : @Listen_accepts libp2p (fresh "aaa") (addr ble "Qmeo1") = true)
    by reflexivity.
  assert (H5 : @Listen_accepts libp2p (fresh "mmm") (addr ble "mmm") = true)
    by reflexivity.
  split; [exact H1|]. split; [exact H2|]. split; [exact H3|].
  split; [exact H4|]. split; [exact H5|].
  destruct (@Listen_overlapping_calls libp2p ∅ 0 1 (fresh "aaa") (fresh "mmm")
              (addr ble "Qmeo1") (addr ble "mmm") H1 H2 H3 eq_refl eq_refl
              H4 H5) as (mA & mB & HA & HB & _).
  repeat split; vm_compute; reflexivity.
Defined.

Lemma HandleFoundPeer_election_by_address_witness :
  @peer_Decode libp2p "aaa" = inl {| peer.ID_String := "aaa" |}
  /\ listener (listening "zzz") = Some listener_zzz
  /\ String.ltb (@Listener_Addr_String package listener_zzz) "aaa" = false
  /\ fst (@HandleFoundPeer libp2p package (listening "zzz") "aaa" CaseSend)
     = FoundIncoming
         {| req_remoteMa := addr ble "aaa";
            req_remotePID := {| peer.ID_String := "aaa" |} |}
  /\ (inboundConnReq <$>
        listener
          (snd (@HandleFoundPeer libp2p package (listening "zzz") "aaa"
                  CaseSend)))
     = Some [{| req_remoteMa := addr ble "aaa";
                req_remotePID := {| peer.ID_String := "aaa" |} |}].
Proof.
  assert (H1 : @peer_Decode libp2p "aaa" = inl {| peer.ID_String := "aaa" |})
    by reflexivity.
  assert (H2 : ma.NewMultiaddr (@protocols libp2p)
                 (Sprintf_slash2 (ProtocolName (driver (listening "zzz")))
                    "aaa") = inl (addr ble "aaa")) by reflexivity.
  assert (H3 : listener (listening "zzz") = Some listener_zzz) by reflexivity.
  assert (H4 : ctx_Err (listener_ctx listener_zzz) = false) by reflexivity.
  assert (H5 : String.ltb (@Listener_Addr_String package listener_zzz) "aaa"
               = false) by reflexivity.
  split; [exact H1|]. split; [exact H3|]. split; [exact H5|].
  destruct (proj2 (proj2
    (@HandleFoundPeer_election_by_address libp2p package (listening "zzz")
       "aaa" _ _ _ CaseSend H1 H2 H3 H4)) H5) as (Hres & _ & Hq).
  split; [exact Hres | exact Hq].
Defined.

Lemma HandleFoundPeer_rejects_witness :
  listener (fresh "aaa") = None
  /\ snd (@HandleFoundPeer libp2p package (fresh "aaa") "zzz" CaseSend)
     = fresh "aaa".
Proof.
  split; [reflexivity|].
  apply (@HandleFoundPeer_rejects libp2p package). right. intros l Hl.
  discriminate Hl.
Defined.

Lemma HandleFoundPeer_returns_true_iff_witness :
  @peer_Decode libp2p "aaa" = inl {| peer.ID_String := "aaa" |}
  /\ ma.NewMultiaddr (@protocols libp2p)
       (Sprintf_slash2 (ProtocolName (driver (listening "zzz"))) "aaa")
     = inl (addr ble "aaa")
  /\ Found_returns
       (fst (@HandleFoundPeer libp2p package (listening "zzz") "aaa" CaseSend))
     = Some true.
Proof.
  split; [reflexivity|]. split; [reflexivity|].
  apply (@HandleFoundPeer_returns_true_iff libp2p package (listening "zzz")
           "aaa" CaseSend {| peer.ID_String := "aaa" |} (addr ble "aaa"));
    try reflexivity.
  exists (newListener background (addr ble "zzz")).
  split; [reflexivity|]. split; [reflexivity|]. by right.
Defined.

Lemma HandleLostPeer_closes_witness :
  @peer_Decode libp2p "zzz" = inl zzz
  /\ ma.NewMultiaddr (@protocols libp2p)
       (Sprintf_slash2 (ProtocolName (driver busy)) "zzz")
     = inl (addr ble "zzz")
  /\ map network.closed
       (swarm_conns (swarm (snd (@HandleLostPeer libp2p busy "zzz"))))
     = [true; false; false]
  /\ Peerstore (swarm (snd (@HandleLostPeer libp2p busy "zzz")))
     = [pstore.SetAddr zzz (addr ble "zzz") (-1)].
Proof.
  assert (H1 : @peer_Decode libp2p "zzz" = inl zzz) by reflexivity.
  assert (H2 : ma.NewMultiaddr (@protocols libp2p)
       (Sprintf_slash2 (ProtocolName (driver busy)) "zzz")
     = inl (addr ble "zzz")) by reflexivity.
  split; [exact H1|]. split; [exact H2|]. split; [reflexivity|].
  exact (proj1 (@HandleLostPeer_closes libp2p busy "zzz" zzz _ H1 H2)).
Defined.

Lemma ReceiveFromPeer_copy_isolated_witness :
  slice_valid (heap w0) payload
  /\ exists data c',
      connMap (snd (ReceiveFromPeer (heap w0) with_ready_conn "zzz" payload))
        !! "zzz" = Some c'
      /\ mp_input c' = mp_input established ++ [data]
      /\ ptr data <> ptr payload
      /\ slice_bytes
           (<[ptr payload := [x00; x00; x00]]>
              (fst (ReceiveFromPeer (heap w0) with_ready_conn "zzz" payload)))
           data
         = slice_bytes (heap w0) payload.
Proof.
  assert (Hv : slice_valid (heap w0) payload).
  { exists [x51; x52; x53]. split; [reflexivity | cbn; lia]. }
  split; [exact Hv|].
  apply (ReceiveFromPeer_copy_isolated (heap w0) with_ready_conn "zzz" payload
           established [x00; x00; x00] Hv); reflexivity.
Defined.


Lemma initial_w0 : initial w0.
Proof.
  split; [reflexivity|]. intros i t Hi. unfold w0 in Hi. cbn in Hi.
  apply lookup_insert_Some in Hi as [[<- <-]|[_ Hi]]; [reflexivity|].
  apply lookup_insert_Some in Hi as [[<- <-]|[_ Hi]]; [reflexivity|].
  by rewrite lookup_empty in Hi.
Qed.

Lemma registry_agrees_with_listeners_witness :
  initial w0
  /\ registry_consistent
       (@run libp2p package
          [CallListen 0 (addr ble "Qmeo1"); CallListen 1 (addr ble "mmm")] w0)
  /\ registry_sound
       (@run libp2p package
          [CallListen 0 (addr ble "Qmeo1"); CallListen 1 (addr ble "mmm")] w0).
Proof.
  split; [exact initial_w0|].
  exact (@registry_agrees_with_listeners libp2p package w0 _ initial_w0).
Defined.

Lemma one_listener_per_protocol_witness :
  let w :=
    @run libp2p package
      [CallListen 0 (addr ble "Qmeo1"); CallListen 1 (addr ble "mmm")] w0 in
  initial w0
  /\ transports w !! 0 = Some (listening "aaa")
  /\ transports w !! 1 = Some (fresh "mmm")
  /\ ProtocolName (driver (listening "aaa"))
     = ProtocolName (driver (fresh "mmm"))
  /\ is_Some (listener (listening "aaa"))
  /\ (is_Some (listener (fresh "mmm")) -> 0 = 1).
Proof.
  intros w.
  assert (H0 : transports w !! 0 = Some (listening "aaa"))
    by (vm_compute; reflexivity).
  assert (H1 : transports w !! 1 = Some (fresh "mmm"))
    by (vm_compute; reflexivity).
  assert (Hl : is_Some (listener (listening "aaa"))) by (by eexists).
  split; [exact initial_w0|]. split; [exact H0|]. split; [exact H1|].
  split; [reflexivity|]. split; [exact Hl|].
  exact (@one_listener_per_protocol libp2p package w0 _ 0 1 _ _ initial_w0
           H0 H1 eq_refl Hl).
Defined.

End MoreExamples.
